(** * open_bus_stride_etl.stats.api: day-window statistics and freshness check

    A shallow embedding of [src/open_bus_stride_etl/stats/api.py]:
    [siri_snapshots_iterator], [last_day_stats_iterator] and [collect],
    together with the properties of the specification that concern them.

    Modelling conventions.
    - An instant (a timezone-aware datetime, a [timestamptz] column) is a [Z]:
      microseconds since the Unix epoch.  Comparing two aware datetimes
      compares instants, whatever timezone each one carries.
    - A calendar date is its proleptic Gregorian ordinal, as
      [datetime.toordinal] gives it (1 is 0001-01-01); year, month and day are
      read back with CPython's [_ord2ymd].
    - The store is a record of tables (lists of rows).  Queries are total
      functions of the store; a failing storage is outside the model.
    - A filter is evaluated by the store with SQL's three-valued logic: a row
      is kept when the WHERE clause is TRUE, and dropped when it is FALSE or
      UNKNOWN.
    - Python exceptions, the queries issued to the session and the lines
      printed are threaded through a small monad [M].
    - A generator is a prologue followed by one suspended computation per
      item: nothing runs until a consumer pulls.
    - A limit is a natural number, as [range(limit)] and [[:limit]] read a
      non-negative one. *)

From Stdlib Require Import ZArith List String Ascii Bool Lia Arith.
From Stdlib Require Import Permutation Sorted.
Import ListNotations.
Open Scope Z_scope.

(* ================================================================= *)
(** ** Calendar arithmetic of [datetime] *)

Module Calendar.

Definition _MAXORDINAL : Z := 3652059.
Definition _DI400Y : Z := 146097.
Definition _DI100Y : Z := 36524.
Definition _DI4Y : Z := 1461.

Definition _DAYS_IN_MONTH : list Z :=
  [-1; 31; 28; 31; 30; 31; 30; 31; 31; 30; 31; 30; 31].

Definition _DAYS_BEFORE_MONTH : list Z :=
  [-1; 0; 31; 59; 90; 120; 151; 181; 212; 243; 273; 304; 334].

Definition index (l : list Z) (i : Z) : Z := nth (Z.to_nat i) l 0.

Definition _is_leap (year : Z) : bool :=
  (year mod 4 =? 0) && (negb (year mod 100 =? 0) || (year mod 400 =? 0)).

Definition _days_before_year (year : Z) : Z :=
  let y := year - 1 in
  y * 365 + y / 4 - y / 100 + y / 400.

Definition _days_before_month (year month : Z) : Z :=
  index _DAYS_BEFORE_MONTH month
  + (if (2 <? month) && _is_leap year then 1 else 0).

Definition _ymd2ord (year month day : Z) : Z :=
  _days_before_year year + _days_before_month year month + day.

(** [_ord2ymd]: ordinal to (year, month, day). *)
Definition _ord2ymd (n0 : Z) : Z * Z * Z :=
  let n := n0 - 1 in
  let n400 := n / _DI400Y in
  let n := n mod _DI400Y in
  let year := n400 * 400 + 1 in
  let n100 := n / _DI100Y in
  let n := n mod _DI100Y in
  let n4 := n / _DI4Y in
  let n := n mod _DI4Y in
  let n1 := n / 365 in
  let n := n mod 365 in
  let year := year + (n100 * 100 + n4 * 4 + n1) in
  if (n1 =? 4) || (n100 =? 4) then (year - 1, 12, 31)
  else
    let leapyear := (n1 =? 3) && (negb (n4 =? 24) || (n100 =? 3)) in
    let month := Z.shiftr (n + 50) 5 in
    let preceding :=
      index _DAYS_BEFORE_MONTH month
      + (if (2 <? month) && leapyear then 1 else 0) in
    if n <? preceding then
      let month := month - 1 in
      let preceding :=
        preceding
        - (index _DAYS_IN_MONTH month
           + (if (month =? 2) && leapyear then 1 else 0)) in
      (year, month, n - preceding + 1)
    else (year, month, n - preceding + 1).

End Calendar.

(** A [datetime] value as the iterator uses it: the date (as an ordinal) and
    the time of day in microseconds.  The attached tzinfo is never read by the
    code (only [year], [month], [day] and day arithmetic are), so it is not
    carried. *)
Record datetime : Type := mk_datetime {
  toordinal : Z;
  time_of_day : Z
}.

Definition year (d : datetime) : Z := fst (fst (Calendar._ord2ymd (toordinal d))).
Definition month (d : datetime) : Z := snd (fst (Calendar._ord2ymd (toordinal d))).
Definition day (d : datetime) : Z := snd (Calendar._ord2ymd (toordinal d)).

(** A well-formed [datetime] lies between [datetime.min] and [datetime.max]. *)
Definition datetime_wf (d : datetime) : Prop :=
  1 <= toordinal d <= Calendar._MAXORDINAL.

Definition date_of_ymd (y m d : Z) : datetime :=
  mk_datetime (Calendar._ymd2ord y m d) 0.

(* ================================================================= *)
(** ** Text: [strftime('%Y/%m/%d/')] and SQL [LIKE] *)

Definition digit (n : Z) : ascii := ascii_of_nat (48 + Z.to_nat (n mod 10)).

Definition pad2 (n : Z) (k : string) : string :=
  String (digit (n / 10)) (String (digit n) k).

Definition pad4 (n : Z) (k : string) : string :=
  String (digit (n / 1000)) (String (digit (n / 100)) (pad2 n k)).

Definition slash : ascii := "/"%char.

(** [%Y] as the C library prints it: the year in decimal, without leading
    zeros (so on fewer than four digits before the year 1000). *)
Definition year_digits (y : Z) (k : string) : string :=
  if y <? 10 then String (digit y) k
  else if y <? 100 then pad2 y k
  else if y <? 1000 then String (digit (y / 100)) (pad2 y k)
  else pad4 y k.

(** [strftime('%Y/%m/%d/')] of the date with fields [y], [m], [d]: the year
    as [%Y] prints it, month and day on two digits. *)
Definition strftime_ymd (y m d : Z) : string :=
  year_digits y
    (String slash (pad2 m (String slash (pad2 d (String slash ""))))).

(** The format [YYYY/MM/DD/] of the specification: the year on four digits,
    month and day on two. *)
Definition yyyy_mm_dd (y m d : Z) : string :=
  pad4 y (String slash (pad2 m (String slash (pad2 d (String slash ""))))).

Definition percent : ascii := "%"%char.
Definition underscore : ascii := "_"%char.

(** SQL [s LIKE p]: [%] matches any run of characters, [_] any single
    character, every other character itself. *)
Fixpoint like (p : string) : string -> bool :=
  match p with
  | EmptyString => fun s => match s with EmptyString => true | _ => false end
  | String c p' =>
      if Ascii.eqb c percent then
        fix star (s : string) : bool :=
          like p' s
          || match s with EmptyString => false | String _ s' => star s' end
      else if Ascii.eqb c underscore then
        fun s => match s with EmptyString => false | String _ s' => like p' s' end
      else
        fun s =>
          match s with
          | EmptyString => false
          | String d s' => Ascii.eqb c d && like p' s'
          end
  end.

(** A pattern character that LIKE reads literally. *)
Definition literal (c : ascii) : bool :=
  negb (Ascii.eqb c percent) && negb (Ascii.eqb c underscore).

Fixpoint all_literal (p : string) : bool :=
  match p with
  | EmptyString => true
  | String c p' => literal c && all_literal p'
  end.

(* ================================================================= *)
(** ** The store: tables of [open_bus_stride_db] *)

Inductive SiriSnapshotEtlStatusEnum : Type :=
| loading
| loaded
| error_status.

(** [SiriSnapshotEtlStatusEnum.value]. *)
Definition value (e : SiriSnapshotEtlStatusEnum) : string :=
  match e with
  | loading => "loading"
  | loaded => "loaded"
  | error_status => "error"
  end.

Record SiriSnapshot : Type := {
  siri_snapshot_pk : Z;
  snapshot_id : string;
  etl_status : SiriSnapshotEtlStatusEnum;
  etl_start_time : Z;
  etl_end_time : option Z;
  error : option string;
  num_successful_parse_vehicle_locations : option Z;
  num_failed_parse_vehicle_locations : option Z
}.

Record VehicleLocation : Type := {
  vehicle_location_pk : Z;
  siri_snapshot_id : Z
}.

(** [is_from_gtfs] is a nullable boolean column: [None] is SQL NULL. *)
Record Ride : Type := {
  ride_pk : Z;
  ride_route_id : Z;
  scheduled_start_time : Z;
  ride_is_from_gtfs : option bool
}.

Record Route : Type := {
  route_pk : Z;
  route_is_from_gtfs : option bool
}.

Record RouteStop : Type := {
  route_stop_pk : Z;
  route_stop_route_id : Z;
  route_stop_stop_id : Z
}.

Record Stop : Type := {
  stop_pk : Z
}.

Record Store : Type := {
  siri_snapshots : list SiriSnapshot;
  vehicle_locations : list VehicleLocation;
  rides : list Ride;
  routes : list Route;
  route_stops : list RouteStop;
  stops : list Stop
}.

Definition empty_store : Store :=
  {| siri_snapshots := []; vehicle_locations := []; rides := [];
     routes := []; route_stops := []; stops := [] |}.

(* ================================================================= *)
(** ** SQL expressions *)

Module Sql.

(** A truth value of SQL: [None] is UNKNOWN. *)
Definition sqlbool : Type := option bool.

Definition and_ (a b : sqlbool) : sqlbool :=
  match a, b with
  | Some false, _ => Some false
  | _, Some false => Some false
  | Some true, Some true => Some true
  | _, _ => None
  end.

Definition le (a b : Z) : sqlbool := Some (a <=? b).
Definition ge (a b : Z) : sqlbool := Some (a >=? b).
Definition eq (a b : Z) : sqlbool := Some (a =? b).

(** [column == True] renders as [column = true], [column != True] as
    [column != true]; both are UNKNOWN on a NULL column. *)
Definition eq_true (c : option bool) : sqlbool :=
  match c with
  | Some b => Some (Bool.eqb b true)
  | None => None
  end.

Definition ne_true (c : option bool) : sqlbool :=
  match c with
  | Some b => Some (negb (Bool.eqb b true))
  | None => None
  end.

Definition like_ (column pattern : string) : sqlbool :=
  Some (like pattern column).

(** A WHERE clause keeps the rows on which it is TRUE. *)
Definition holds (v : sqlbool) : bool :=
  match v with
  | Some true => true
  | _ => false
  end.

Definition where_ {A : Type} (p : A -> sqlbool) (rows : list A) : list A :=
  filter (fun r => holds (p r)) rows.

(** [EXISTS (SELECT 1 FROM rows WHERE p)]. *)
Definition exists_ {A : Type} (p : A -> sqlbool) (rows : list A) : sqlbool :=
  Some (existsb (fun r => holds (p r)) rows).

(** [l JOIN r ON on]: one row per matching pair. *)
Definition join {A B : Type} (on : A -> B -> sqlbool)
    (l : list A) (r : list B) : list (A * B) :=
  flat_map (fun a => map (pair a) (where_ (on a) r)) l.

Definition count {A : Type} (rows : list A) : nat := List.length rows.

(** [ORDER BY key DESC].  SQL leaves the order of rows of equal key to the
    store; here they stay in the order of the table, which stands for the
    order the store happens to scan them in.  A store that breaks ties
    another way is the same table in another order, so a statement meant to
    hold of the source quantifies over the order of the table. *)
Fixpoint insert_desc {A : Type} (key : A -> Z) (x : A) (l : list A) : list A :=
  match l with
  | [] => [x]
  | y :: l' =>
      if key y <=? key x then x :: y :: l'
      else y :: insert_desc key x l'
  end.

Definition order_by_desc {A : Type} (key : A -> Z) (rows : list A) : list A :=
  fold_right (insert_desc key) [] rows.

End Sql.

Definition one_day : Z := 86400000000.
Definition one_hour : Z := 3600000000.
Definition ten_minutes : Z := 600000000.

(** ** The queries of [last_day_stats_iterator]

    Each definition is one [session.query(...).filter(...)] of the source,
    before [.count()]. *)
Section DayQueries.

Variable store : Store.
Variables datetime_from datetime_to : Z.
Variable day_prefix : string.

Definition ride_in_window (r : Ride) : Sql.sqlbool :=
  Sql.and_ (Sql.le (scheduled_start_time r) datetime_to)
           (Sql.ge (scheduled_start_time r) datetime_from).

Definition snapshot_id_like (x : SiriSnapshot) : Sql.sqlbool :=
  Sql.like_ (snapshot_id x) (day_prefix ++ "%")%string.

Definition q_siri_snapshot_by_etl_started : list SiriSnapshot :=
  Sql.where_
    (fun x => Sql.and_ (Sql.le (etl_start_time x) datetime_to)
                       (Sql.ge (etl_start_time x) datetime_from))
    (siri_snapshots store).

Definition q_siri_snapshot_by_snapshot_id : list SiriSnapshot :=
  Sql.where_ snapshot_id_like (siri_snapshots store).

Definition q_vehicle_location_by_snapshot_id : list VehicleLocation :=
  Sql.where_
    (fun v =>
       Sql.exists_
         (fun x => Sql.and_ (Sql.eq (siri_snapshot_pk x) (siri_snapshot_id v))
                            (snapshot_id_like x))
         (siri_snapshots store))
    (vehicle_locations store).

Definition q_ride (flag : option bool -> Sql.sqlbool) : list Ride :=
  Sql.where_
    (fun r => Sql.and_ (ride_in_window r) (flag (ride_is_from_gtfs r)))
    (rides store).

Definition q_route (flag : option bool -> Sql.sqlbool) : list Route :=
  Sql.where_
    (fun ro =>
       Sql.and_
         (Sql.exists_
            (fun r => Sql.and_ (Sql.eq (route_pk ro) (ride_route_id r))
                               (ride_in_window r))
            (rides store))
         (flag (route_is_from_gtfs ro)))
    (routes store).

Definition route_stop_join_route_join_ride
  : list (RouteStop * Route * Ride) :=
  Sql.join (fun '(_, ro) r => Sql.eq (route_pk ro) (ride_route_id r))
    (Sql.join (fun rs ro => Sql.eq (route_pk ro) (route_stop_route_id rs))
       (route_stops store) (routes store))
    (rides store).

Definition q_route_stop (flag : option bool -> Sql.sqlbool)
  : list (RouteStop * Route * Ride) :=
  Sql.where_
    (fun '(_, ro, r) =>
       Sql.and_ (ride_in_window r) (flag (route_is_from_gtfs ro)))
    route_stop_join_route_join_ride.

Definition stop_join_route_stop_join_route_join_ride
  : list (Stop * RouteStop * Route * Ride) :=
  Sql.join (fun '(_, _, ro) r => Sql.eq (route_pk ro) (ride_route_id r))
    (Sql.join (fun '(_, rs) ro => Sql.eq (route_pk ro) (route_stop_route_id rs))
       (Sql.join (fun st rs => Sql.eq (stop_pk st) (route_stop_stop_id rs))
          (stops store) (route_stops store))
       (routes store))
    (rides store).

Definition q_stop (flag : option bool -> Sql.sqlbool)
  : list (Stop * RouteStop * Route * Ride) :=
  Sql.where_
    (fun '(_, _, ro, r) =>
       Sql.and_ (ride_in_window r) (flag (route_is_from_gtfs ro)))
    stop_join_route_stop_join_route_join_ride.

End DayQueries.

(** The dictionary one day yields, its nested groups flattened. *)
Record DayStats : Type := {
  date : datetime;
  siri_snapshot_by_etl_started : nat;
  siri_snapshot_by_snapshot_id : nat;
  vehicle_location_by_snapshot_id : nat;
  ride_is_from_gtfs_count : nat;
  ride_not_from_gtfs_count : nat;
  route_by_rides_is_from_gtfs : nat;
  route_by_rides_not_from_gtfs : nat;
  route_stop_by_route_is_from_gtfs : nat;
  route_stop_by_route_not_from_gtfs : nat;
  stop_by_route_stop_is_from_gtfs : nat;
  stop_by_route_stop_not_from_gtfs : nat
}.

(** The counts of one day, given its window and its date prefix. *)
Definition day_counts (store : Store) (d : datetime)
    (datetime_from datetime_to : Z) (day_prefix : string) : DayStats :=
  {| date := d;
     siri_snapshot_by_etl_started :=
       Sql.count (q_siri_snapshot_by_etl_started store datetime_from datetime_to);
     siri_snapshot_by_snapshot_id :=
       Sql.count (q_siri_snapshot_by_snapshot_id store day_prefix);
     vehicle_location_by_snapshot_id :=
       Sql.count (q_vehicle_location_by_snapshot_id store day_prefix);
     ride_is_from_gtfs_count :=
       Sql.count (q_ride store datetime_from datetime_to Sql.eq_true);
     ride_not_from_gtfs_count :=
       Sql.count (q_ride store datetime_from datetime_to Sql.ne_true);
     route_by_rides_is_from_gtfs :=
       Sql.count (q_route store datetime_from datetime_to Sql.eq_true);
     route_by_rides_not_from_gtfs :=
       Sql.count (q_route store datetime_from datetime_to Sql.ne_true);
     route_stop_by_route_is_from_gtfs :=
       Sql.count (q_route_stop store datetime_from datetime_to Sql.eq_true);
     route_stop_by_route_not_from_gtfs :=
       Sql.count (q_route_stop store datetime_from datetime_to Sql.ne_true);
     stop_by_route_stop_is_from_gtfs :=
       Sql.count (q_stop store datetime_from datetime_to Sql.eq_true);
     stop_by_route_stop_not_from_gtfs :=
       Sql.count (q_stop store datetime_from datetime_to Sql.ne_true) |}.

(* ================================================================= *)
(** ** Effects: exceptions, the session's query log, standard output *)

Inductive exn : Type :=
| OverflowError
| AssertionError (msg : string)
| Raised (what : string).

(** A statement sent to the store. *)
Inductive query : Type :=
| CountSiriSnapshots
| SelectLatestSiriSnapshots (limit : nat)
| LoadVehicleLocations (pk : Z)
| CountOfDay (key : string) (datetime_from : Z).

(** What one yielded snapshot dictionary holds. *)
Record SnapshotSummary : Type := {
  summary_snapshot_id : string;
  summary_etl_status : string;
  summary_etl_start_time : Z;
  summary_etl_end_time : option Z;
  summary_error : option string;
  summary_num_successful_parse_vehicle_locations : option Z;
  summary_num_failed_parse_vehicle_locations : option Z;
  summary_vehicle_locations : nat
}.

(** A [print] call of [collect]. *)
Inductive line : Type :=
| total_siri_snapshots (n : nat)
| last_days_header (limit : nat)
| yaml_day (stats : DayStats)
| latest_siri_snapshots_header (limit : nat)
| yaml_snapshot (summary : SnapshotSummary)
| validation_error_no_latest
| validation_error_older (latest : Z)
| validation_success (latest : Z).

Record world : Type := {
  queries : list query;
  printed : list line
}.

Definition initial_world : world := {| queries := []; printed := [] |}.

Definition M (A : Type) : Type := world -> world * (exn + A).

Definition ret {A : Type} (a : A) : M A := fun w => (w, inr a).

Definition raise {A : Type} (e : exn) : M A := fun w => (w, inl e).

Definition bind {A B : Type} (c : M A) (k : A -> M B) : M B :=
  fun w =>
    match c w with
    | (w', inl e) => (w', inl e)
    | (w', inr a) => k a w'
    end.

Notation "x <- c ;; k" := (bind c (fun x => k))
  (at level 61, c at next level, right associativity).
Notation "c ;;; k" := (bind c (fun _ => k))
  (at level 61, right associativity).

(** The outcome of a collaborator's call, inside [M]. *)
Definition lift {A : Type} (r : exn + A) : M A :=
  match r with
  | inl e => raise e
  | inr a => ret a
  end.

Definition issue (q : query) : M unit :=
  fun w => ({| queries := queries w ++ [q]; printed := printed w |}, inr tt).

Definition print (l : line) : M unit :=
  fun w => ({| queries := queries w; printed := printed w ++ [l] |}, inr tt).

Fixpoint issue_all (qs : list query) : M unit :=
  match qs with
  | [] => ret tt
  | q :: qs' => issue q ;;; issue_all qs'
  end.

(** [assert cond, msg]. *)
Definition assert (cond : bool) (msg : string) : M unit :=
  if cond then ret tt else raise (AssertionError msg).

(** A generator object: the code up to the loop, then one suspended
    computation per item. *)
Definition generator (A : Type) : Type := M (list (M A)).

(** [for x in items: state = body(x, state)] over the items left. *)
Fixpoint for_items {A S : Type} (items : list (M A)) (body : A -> S -> M S)
    (s : S) : M S :=
  match items with
  | [] => ret s
  | item :: rest =>
      x <- item ;;
      s' <- body x s ;;
      for_items rest body s'
  end.

Definition for_ {A S : Type} (g : generator A) (body : A -> S -> M S)
    (s : S) : M S :=
  items <- g ;;
  for_items items body s.

(** Pulling every item of a generator: the items it yields, and the exception
    that ended it, if one did. *)
Fixpoint drain_items {A : Type} (items : list (M A)) (w : world)
  : world * list A * option exn :=
  match items with
  | [] => (w, [], None)
  | item :: rest =>
      match item w with
      | (w', inl e) => (w', [], Some e)
      | (w', inr a) =>
          let '(w'', l, e) := drain_items rest w' in (w'', a :: l, e)
      end
  end.

Definition drain {A : Type} (g : generator A) (w : world)
  : world * list A * option exn :=
  match g w with
  | (w', inl e) => (w', [], Some e)
  | (w', inr items) => drain_items items w'
  end.

(* ================================================================= *)
(** ** [stats/api.py] *)

(** [d - datetime.timedelta(days=i)]. *)
Definition sub_days (d : datetime) (i : nat) : M datetime :=
  let o := toordinal d - Z.of_nat i in
  if (0 <? o) && (o <=? Calendar._MAXORDINAL)
  then ret (mk_datetime o (time_of_day d))
  else raise OverflowError.

(** [t + datetime.timedelta(days=1)] for the aware datetime whose wall-clock
    date has ordinal [o] and whose instant is [t]: the wall clock moves one
    day, the offset stays, so the instant moves 24 hours. *)
Definition add_one_day (o : Z) (t : Z) : M Z :=
  if o + 1 <=? Calendar._MAXORDINAL then ret (t + one_day)
  else raise OverflowError.

Definition day_keys : list string :=
  ["siri_snapshot.by_etl_started"; "siri_snapshot.by_snapshot_id";
   "vehicle_location.by_snapshot_id";
   "ride.is_from_gtfs"; "ride.not_from_gtfs";
   "route.by_rides_is_from_gtfs"; "route.by_rides_not_from_gtfs";
   "route_stop.by_route_is_from_gtfs"; "route_stop.by_route_not_from_gtfs";
   "stop.by_route_stop_is_from_gtfs"; "stop.by_route_stop_not_from_gtfs"]%string.

Definition summary_of (store : Store) (x : SiriSnapshot) : SnapshotSummary :=
  {| summary_snapshot_id := snapshot_id x;
     summary_etl_status := value (etl_status x);
     summary_etl_start_time := etl_start_time x;
     summary_etl_end_time := etl_end_time x;
     summary_error := error x;
     summary_num_successful_parse_vehicle_locations :=
       num_successful_parse_vehicle_locations x;
     summary_num_failed_parse_vehicle_locations :=
       num_failed_parse_vehicle_locations x;
     summary_vehicle_locations :=
       List.length
         (filter (fun v => siri_snapshot_id v =? siri_snapshot_pk x)
            (vehicle_locations store)) |}.

(** The rows of
    [session.query(SiriSnapshot).order_by(desc(SiriSnapshot.etl_start_time))[:limit]]. *)
Definition latest_siri_snapshots (store : Store) (limit : nat)
  : list SiriSnapshot :=
  firstn limit (Sql.order_by_desc etl_start_time (siri_snapshots store)).

Definition siri_snapshots_iterator (store : Store) (limit : nat)
  : generator SnapshotSummary :=
  issue (SelectLatestSiriSnapshots limit) ;;;
  ret (map (fun x =>
              issue (LoadVehicleLocations (siri_snapshot_pk x)) ;;;
              ret (summary_of store x))
         (latest_siri_snapshots store limit)).

(** What [collect] returns: the bundle of raw results, or a verdict. *)
Record Res : Type := {
  num_siri_snapshots : nat;
  res_siri_snapshots_iterator : generator SnapshotSummary;
  res_last_day_stats_iterator : generator DayStats
}.

Inductive retval : Type :=
| ReturnRes (res : Res)
| ReturnBool (b : bool).

Section Api.

(** [pytz.timezone('israel').localize] at midnight of the day of the given
    ordinal: the instant of that local midnight.  The localized datetime keeps
    the wall-clock fields it was given. *)
Variable localize : Z -> exn + Z.

(** [..common.parse_siri_snapshot_id]: the instant an identifier encodes. *)
Variable parse_siri_snapshot_id : string -> exn + Z.

(** The clock: [today] is the value of
    [pytz.timezone('israel').localize(datetime.datetime(now.year, now.month, now.day))]
    for [now = datetime.datetime.now()], and [now_utc] the value of
    [datetime.datetime.now(pytz.UTC)]. *)
Variable today : datetime.
Variable now_utc : Z.

(** The body of the loop of [last_day_stats_iterator] for index [i].  The
    query built on line 43 is never executed and leaves no trace. *)
Definition day_item (store : Store) (from_ : datetime) (i : nat) : M DayStats :=
  date <- sub_days from_ i ;;
  datetime_from <- lift (localize (toordinal date)) ;;
  datetime_to <- add_one_day (toordinal date) datetime_from ;;
  let day_prefix := strftime_ymd (year date) (month date) (day date) in
  issue_all (map (fun k => CountOfDay k datetime_from) day_keys) ;;;
  ret (day_counts store date datetime_from datetime_to day_prefix).

Definition last_day_stats_iterator (store : Store) (limit : nat)
    (from_ : option datetime) : generator DayStats :=
  let from_ := match from_ with
               | Some d => d
               | None => today
               end in
  ret (map (day_item store from_) (seq 0 limit)).

Definition collect (store : Store) (latest_siri_snapshots_limit : nat)
    (last_days_limit : nat) (last_days_from : option datetime)
    (print_results validate : bool) : M retval :=
  n <- (issue CountSiriSnapshots ;;; ret (Sql.count (siri_snapshots store))) ;;
  let res :=
    {| num_siri_snapshots := n;
       res_siri_snapshots_iterator :=
         siri_snapshots_iterator store latest_siri_snapshots_limit;
       res_last_day_stats_iterator :=
         last_day_stats_iterator store last_days_limit last_days_from |} in
  if print_results then
    print (total_siri_snapshots (num_siri_snapshots res)) ;;;
    print (last_days_header last_days_limit) ;;;
    for_ (res_last_day_stats_iterator res)
      (fun last_day_stats (_ : unit) => print (yaml_day last_day_stats)) tt ;;;
    print (latest_siri_snapshots_header latest_siri_snapshots_limit) ;;;
    latest_snapshot_datetime <-
      for_ (res_siri_snapshots_iterator res)
        (fun siri_snapshot latest_snapshot_datetime =>
           snapshot_datetime <-
             lift (parse_siri_snapshot_id (summary_snapshot_id siri_snapshot)) ;;
           let latest_snapshot_datetime :=
             match latest_snapshot_datetime with
             | None => Some snapshot_datetime
             | Some latest =>
                 if latest <? snapshot_datetime then Some snapshot_datetime
                 else Some latest
             end in
           print (yaml_snapshot siri_snapshot) ;;;
           ret latest_snapshot_datetime)
        None ;;
    if validate then
      match latest_snapshot_datetime with
      | None =>
          print validation_error_no_latest ;;;
          ret (ReturnBool false)
      | Some latest =>
          if latest <? now_utc - one_hour then
            print (validation_error_older latest) ;;;
            ret (ReturnBool false)
          else
            print (validation_success latest) ;;;
            ret (ReturnBool true)
      end
    else ret (ReturnBool true)
  else
    assert (negb validate) "validate is not supported if print_results is False" ;;;
    ret (ReturnRes res).

End Api.

(* ================================================================= *)
(** ** Concrete collaborators, for evaluating the model *)

Module Example.

(** A zone of fixed offset UTC+2, Israel Standard Time as in force in
    January: the instant of local midnight of the day with ordinal [o].  It
    stands for pytz on winter dates of recent years only (pytz gives UTC+3 in
    summer and local mean time in the distant past); in the runs near the
    year 1 below only the date arithmetic matters, not the offset.  As pytz
    does, the day before and the day after are probed first, which overflows
    at the two ends of the calendar. *)
Definition ist_localize (o : Z) : exn + Z :=
  if (1 <? o) && (o <? Calendar._MAXORDINAL)
  then inr ((o - Calendar._ymd2ord 1970 1 1) * one_day - 2 * one_hour)
  else inl OverflowError.

(** An identifier codec given by a table. *)
Fixpoint parse_table (table : list (string * Z)) (s : string) : exn + Z :=
  match table with
  | [] => inl (Raised "MalformedIdentifier")
  | (k, t) :: table' =>
      if String.eqb k s then inr t else parse_table table' s
  end.

Definition snapshot (pk : Z) (id : string) (start : Z) : SiriSnapshot :=
  {| siri_snapshot_pk := pk;
     snapshot_id := id;
     etl_status := loaded;
     etl_start_time := start;
     etl_end_time := None;
     error := None;
     num_successful_parse_vehicle_locations := None;
     num_failed_parse_vehicle_locations := None |}.

Definition ride (pk route : Z) (start : Z) (flag : option bool) : Ride :=
  {| ride_pk := pk;
     ride_route_id := route;
     scheduled_start_time := start;
     ride_is_from_gtfs := flag |}.

Definition jan1 : datetime := date_of_ymd 2024 1 1.
Definition jan2 : datetime := date_of_ymd 2024 1 2.

(** Midnight of 2024-01-01 and of 2024-01-02 in Israel. *)
Definition jan1_start : Z := 1704060000000000.
Definition jan2_start : Z := 1704146400000000.

Definition with_snapshots (l : list SiriSnapshot) : Store :=
  {| siri_snapshots := l; vehicle_locations := []; rides := [];
     routes := []; route_stops := []; stops := [] |}.

Definition with_rides (l : list Ride) : Store :=
  {| siri_snapshots := []; vehicle_locations := []; rides := l;
     routes := []; route_stops := []; stops := [] |}.

End Example.

(* ================================================================= *)
(** ** Vocabulary of the statements *)

(** The world after more queries and more printed lines. *)
Definition log (w : world) (qs : list query) (ls : list line) : world :=
  {| queries := queries w ++ qs; printed := printed w ++ ls |}.

(** [d] minus [i] days: same time of day, [i] days earlier. *)
Definition day_date (d : datetime) (i : nat) : datetime :=
  mk_datetime (toordinal d - Z.of_nat i) (time_of_day d).

(** Day [i] counted back from [d] can be computed: the date exists, it can be
    localized, and so can the end of its window.  The value is the instant
    the window starts at. *)
Definition day_window (localize : Z -> exn + Z) (d : datetime) (i : nat)
  : exn + Z :=
  let o := toordinal d - Z.of_nat i in
  if (0 <? o) && (o <=? Calendar._MAXORDINAL) then
    match localize o with
    | inl e => inl e
    | inr s =>
        if o + 1 <=? Calendar._MAXORDINAL then inr s else inl OverflowError
    end
  else inl OverflowError.

Definition day_ok (localize : Z -> exn + Z) (d : datetime) (i : nat) : bool :=
  match day_window localize d i with
  | inr _ => true
  | inl _ => false
  end.

(** Every one of the [limit] days counted back from [d] can be computed. *)
Definition days_ok (localize : Z -> exn + Z) (d : datetime) (limit : nat)
  : bool :=
  forallb (day_ok localize d) (seq 0 limit).

Definition start_date (today : datetime) (from_ : option datetime) : datetime :=
  match from_ with
  | Some d => d
  | None => today
  end.

(** The record of day [date] when its window starts at [s]. *)
Definition day_record (store : Store) (date : datetime) (s : Z) : DayStats :=
  day_counts store date s (s + one_day)
    (strftime_ymd (year date) (month date) (day date)).

(** The closed window of 24 hours starting at [s]. *)
Definition in_closed_window (s t : Z) : bool :=
  (s <=? t) && (t <=? s + one_day).

(** The half-open window of 24 hours starting at [s]. *)
Definition in_half_open_window (s t : Z) : bool :=
  (s <=? t) && (t <? s + one_day).

Definition flag_is (b : bool) (flag : option bool) : bool :=
  match flag with
  | Some b' => Bool.eqb b b'
  | None => false
  end.

Definition flag_is_null (flag : option bool) : bool :=
  match flag with
  | Some _ => false
  | None => true
  end.

(** The rides scheduled in the closed window starting at [s]. *)
Definition rides_in_window (store : Store) (s : Z) : list Ride :=
  filter (fun r => in_closed_window s (scheduled_start_time r)) (rides store).

(** The greatest of [t] and the elements of [ts]. *)
Definition maximum (t : Z) (ts : list Z) : Z := fold_left Z.max ts t.

(** The store after the pipeline added snapshots and rides. *)
Definition add_records (store : Store) (xs : list SiriSnapshot)
    (rs : list Ride) : Store :=
  {| siri_snapshots := siri_snapshots store ++ xs;
     vehicle_locations := vehicle_locations store;
     rides := rides store ++ rs;
     routes := routes store;
     route_stops := route_stops store;
     stops := stops store |}.

Definition is_load (q : query) : bool :=
  match q with
  | LoadVehicleLocations _ => true
  | _ => false
  end.

Definition is_staleness_line (l : line) : bool :=
  match l with
  | validation_error_older _ => true
  | _ => false
  end.

(** The instant the window of day [i] starts at (0 when the day cannot be
    computed), and the record the iterator yields for it. *)
Definition day_start (localize : Z -> exn + Z) (d : datetime) (i : nat) : Z :=
  match day_window localize d i with
  | inr s => s
  | inl _ => 0
  end.

Definition expected_day (localize : Z -> exn + Z) (store : Store)
    (d : datetime) (i : nat) : DayStats :=
  day_record store (day_date d i) (day_start localize d i).

Definition day_queries (localize : Z -> exn + Z) (d : datetime) (i : nat)
  : list query :=
  map (fun k => CountOfDay k (day_start localize d i)) day_keys.

(** The exception that ends the loop over the days [l], if one does. *)
Fixpoint first_error (localize : Z -> exn + Z) (d : datetime) (l : list nat)
  : option exn :=
  match l with
  | [] => None
  | i :: l' =>
      match day_window localize d i with
      | inl e => Some e
      | inr _ => first_error localize d l'
      end
  end.

(** The value of [latest_snapshot_datetime] after the identifiers [ids],
    starting from [acc]; or the exception the codec raised. *)
Fixpoint latest_of (parse : string -> exn + Z) (ids : list string)
    (acc : option Z) : exn + option Z :=
  match ids with
  | [] => inr acc
  | id :: ids' =>
      match parse id with
      | inl e => inl e
      | inr t =>
          latest_of parse ids'
            (match acc with
             | None => Some t
             | Some latest => if latest <? t then Some t else Some latest
             end)
      end
  end.

(** What [collect] returns in print mode, given the latest parsed instant. *)
Definition verdict (now_utc : Z) (validate : bool) (latest : option Z) : bool :=
  if validate then
    match latest with
    | None => false
    | Some l => negb (l <? now_utc - one_hour)
    end
  else true.

(* ================================================================= *)
(** ** Vocabulary of the further properties *)

Definition is_day_count (q : query) : bool :=
  match q with
  | CountOfDay _ _ => true
  | _ => false
  end.

Definition is_inventory_query (q : query) : bool :=
  match q with
  | SelectLatestSiriSnapshots _ => true
  | LoadVehicleLocations _ => true
  | _ => false
  end.

Definition is_validation_line (l : line) : bool :=
  match l with
  | validation_error_no_latest => true
  | validation_error_older _ => true
  | validation_success _ => true
  | _ => false
  end.

Definition is_yaml_day (l : line) : bool :=
  match l with
  | yaml_day _ => true
  | _ => false
  end.

Definition is_yaml_snapshot (l : line) : bool :=
  match l with
  | yaml_snapshot _ => true
  | _ => false
  end.

(** The greatest of the instants [ts], if there is one. *)
Definition newest (ts : list Z) : option Z :=
  match ts with
  | [] => None
  | t :: ts' => Some (maximum t ts')
  end.

(** The line the validation prints, if validation is requested. *)
Definition verdict_lines (now_utc : Z) (validate : bool) (latest : option Z)
  : list line :=
  if validate then
    match latest with
    | None => [validation_error_no_latest]
    | Some l =>
        if l <? now_utc - one_hour then [validation_error_older l]
        else [validation_success l]
    end
  else [].

(** The routes that have a ride in the closed window starting at [s]. *)
Definition routes_with_ride_in_window (store : Store) (s : Z) : list Route :=
  filter
    (fun ro =>
       existsb
         (fun r => (route_pk ro =? ride_route_id r)
                   && in_closed_window s (scheduled_start_time r))
         (rides store))
    (routes store).

(** The rows of the three-table and four-table joins whose ride is in the
    closed window starting at [s]. *)
Definition route_stop_rows_in_window (store : Store) (s : Z)
  : list (RouteStop * Route * Ride) :=
  filter (fun '(_, _, r) => in_closed_window s (scheduled_start_time r))
    (route_stop_join_route_join_ride store).

Definition stop_rows_in_window (store : Store) (s : Z)
  : list (Stop * RouteStop * Route * Ride) :=
  filter (fun '(_, _, _, r) => in_closed_window s (scheduled_start_time r))
    (stop_join_route_stop_join_route_join_ride store).

(** The route-stop links of the route of key [k] whose flag is [b]. *)
Definition links_of_route (store : Store) (k : Z) (b : bool)
  : list (RouteStop * Route) :=
  filter (fun '(_, ro) => (route_pk ro =? k)
                          && flag_is b (route_is_from_gtfs ro))
    (Sql.join (fun rs ro => Sql.eq (route_pk ro) (route_stop_route_id rs))
       (route_stops store) (routes store)).

(** The summaries [siri_snapshots_iterator] yields when pulled to its end. *)
Definition inventory (store : Store) (limit : nat) : list SnapshotSummary :=
  snd (fst (drain (siri_snapshots_iterator store limit) initial_world)).

(** The store with other rides. *)
Definition add_rides (store : Store) (rs : list Ride) : Store :=
  add_records store [] rs.

Module Sample.

Definition route (pk : Z) (flag : option bool) : Route :=
  {| route_pk := pk; route_is_from_gtfs := flag |}.

Definition route_stop (pk route stop : Z) : RouteStop :=
  {| route_stop_pk := pk; route_stop_route_id := route;
     route_stop_stop_id := stop |}.

Definition vehicle_location (pk snapshot : Z) : VehicleLocation :=
  {| vehicle_location_pk := pk; siri_snapshot_id := snapshot |}.

(** One route with two stops, one ride at 01:00 of 2024-01-01; two snapshots
    of that day, the first with two vehicle locations. *)
Definition store : Store :=
  {| siri_snapshots :=
       [Example.snapshot 1 "2024/01/01/10/00"
          (Example.jan1_start + 12 * one_hour);
        Example.snapshot 2 "2024/01/01/11/00"
          (Example.jan1_start + 13 * one_hour)];
     vehicle_locations :=
       [vehicle_location 1 1; vehicle_location 2 1; vehicle_location 3 2];
     rides :=
       [Example.ride 1 10 (Example.jan1_start + one_hour) (Some true)];
     routes := [route 10 (Some true)];
     route_stops := [route_stop 1 10 100; route_stop 2 10 101];
     stops := [{| stop_pk := 100 |}; {| stop_pk := 101 |}] |}.

Definition parse : string -> exn + Z :=
  Example.parse_table
    [("2024/01/01/10/00"%string, Example.jan1_start + 12 * one_hour);
     ("2024/01/01/11/00"%string, Example.jan1_start + 13 * one_hour)].

(** A quarter past one in the afternoon of 2024-01-01, Israel time. *)
Definition now : Z := Example.jan1_start + 13 * one_hour + ten_minutes.

End Sample.

(** One ordinal of the first 400-year period: [_ymd2ord] undoes [_ord2ymd]
    there, and the fields are in range. *)
Definition period_ok (n : Z) : bool :=
  let '(y, m, d) := Calendar._ord2ymd n in
  (Calendar._ymd2ord y m d =? n)
  && (1 <=? y) && (y <=? 400)
  && (1 <=? m) && (m <=? 12)
  && (1 <=? d) && (d <=? 31)
  && ((145731 <? n) || (y <=? 399)).

Fixpoint check_from (fuel : nat) (n : Z) : bool :=
  match fuel with
  | O => true
  | S fuel' => period_ok n && check_from fuel' (n + 1)
  end.

(** The date prefix of day [i] counted back from [d]. *)
Definition day_prefix_of (d : datetime) (i : nat) : string :=
  strftime_ymd (year (day_date d i)) (month (day_date d i))
    (day (day_date d i)).

(* ================================================================= *)
(** ** Text lemmas *)

Lemma like_percent (s : string) : like "%" s = true.
Proof.
  induction s as [|c s IH]; [reflexivity|].
  change (like "%" (String c s)) with (false || like "%" s).
  exact IH.
Qed.

Lemma like_literal_prefix (p s : string) :
  all_literal p = true -> like (p ++ "%") s = String.prefix p s.
Proof.
  revert s; induction p as [|c p IH]; intros s H.
  - cbn [append]. rewrite like_percent. now destruct s.
  - cbn [all_literal] in H. apply andb_prop in H as [Hc Hp].
    unfold literal in Hc. apply andb_prop in Hc as [H1 H2].
    apply negb_true_iff in H1, H2.
    cbn [append like]. rewrite H1, H2.
    destruct s as [|d s]; cbn [String.prefix]; [reflexivity|].
    rewrite IH by assumption.
    destruct (Ascii.eqb c d) eqn:E.
    + apply Ascii.eqb_eq in E. subst d.
      destruct (ascii_dec c c) as [_|n]; [reflexivity | now elim n].
    + destruct (ascii_dec c d) as [e|_]; [|reflexivity].
      subst d. now rewrite Ascii.eqb_refl in E.
Qed.

Lemma digit_literal (n : Z) : literal (digit n) = true.
Proof.
  unfold digit.
  pose proof (Z.mod_pos_bound n 10 eq_refl) as B.
  assert (H : (Z.to_nat (n mod 10) < 10)%nat) by lia.
  revert H. generalize (Z.to_nat (n mod 10)) as k. intros k H.
  do 10 (destruct k as [|k]; [reflexivity|]). lia.
Qed.

Lemma strftime_ymd_literal (y m d : Z) :
  all_literal (strftime_ymd y m d) = true.
Proof.
  unfold strftime_ymd, year_digits, pad4, pad2.
  destruct (y <? 10); [|destruct (y <? 100); [|destruct (y <? 1000)]];
    cbn [all_literal]; now rewrite !digit_literal.
Qed.

(** The pattern of a day matches exactly the identifiers that begin with the
    formatted date. *)
Lemma like_day_prefix (y m d : Z) (s : string) :
  like (strftime_ymd y m d ++ "%") s = String.prefix (strftime_ymd y m d) s.
Proof. apply like_literal_prefix, strftime_ymd_literal. Qed.

(* ================================================================= *)
(** ** Running the monad *)

Lemma log_nil (w : world) : log w [] [] = w.
Proof. destruct w; unfold log; cbn. now rewrite !app_nil_r. Qed.

Lemma log_log (w : world) (qs qs' : list query) (ls ls' : list line) :
  log (log w qs ls) qs' ls' = log w (qs ++ qs') (ls ++ ls').
Proof. unfold log; cbn. now rewrite !app_assoc. Qed.

Lemma issue_run (q : query) (w : world) : issue q w = (log w [q] [], inr tt).
Proof. unfold issue, log. now rewrite app_nil_r. Qed.

Lemma print_run (l : line) (w : world) : print l w = (log w [] [l], inr tt).
Proof. unfold print, log. now rewrite app_nil_r. Qed.

Lemma issue_all_run (qs : list query) (w : world) :
  issue_all qs w = (log w qs [], inr tt).
Proof.
  revert w; induction qs as [|q qs IH]; intros w; cbn [issue_all].
  - unfold ret. now rewrite log_nil.
  - unfold bind. rewrite issue_run, IH, log_log. reflexivity.
Qed.

Lemma snd_bind {A B : Type} (c : M A) (k : A -> M B) (w : world) :
  snd (bind c k w)
  = match snd (c w) with
    | inl e => inl e
    | inr a => snd (k a (fst (c w)))
    end.
Proof. unfold bind. destruct (c w) as [w' [e|a]]; reflexivity. Qed.

Section Runs.

Variable localize : Z -> exn + Z.
Variable parse_siri_snapshot_id : string -> exn + Z.
Variable today : datetime.
Variable now_utc : Z.

(** One day of the iterator: the exceptions come before any query. *)
Lemma day_item_spec (store : Store) (d : datetime) (i : nat) (w : world) :
  day_item localize store d i w
  = match day_window localize d i with
    | inl e => (w, inl e)
    | inr _ =>
        (log w (day_queries localize d i) [],
         inr (expected_day localize store d i))
    end.
Proof.
  unfold day_item, expected_day, day_queries, day_start, day_window,
    sub_days, add_one_day, bind.
  destruct ((0 <? toordinal d - Z.of_nat i)
            && (toordinal d - Z.of_nat i <=? Calendar._MAXORDINAL));
    [|reflexivity].
  cbn [ret toordinal].
  destruct (localize (toordinal d - Z.of_nat i)) as [e|s]; [reflexivity|].
  cbn [lift ret].
  destruct (toordinal d - Z.of_nat i + 1 <=? Calendar._MAXORDINAL);
    [|reflexivity].
  unfold ret. cbv beta iota.
  rewrite issue_all_run. reflexivity.
Qed.

Lemma day_ok_window (d : datetime) (i : nat) :
  day_ok localize d i = true ->
  day_window localize d i = inr (day_start localize d i).
Proof.
  unfold day_ok, day_start. now destruct (day_window localize d i).
Qed.

Lemma first_error_ok (d : datetime) (l : list nat) :
  forallb (day_ok localize d) l = true -> first_error localize d l = None.
Proof.
  induction l as [|i l IH]; cbn [forallb first_error]; [reflexivity|].
  intros H. apply andb_prop in H as [Hi Hl].
  rewrite (day_ok_window _ _ Hi). auto.
Qed.

(** Pulling the days [l]: every computable day yields its record. *)
Lemma drain_days (store : Store) (d : datetime) (l : list nat) (w : world) :
  forallb (day_ok localize d) l = true ->
  drain_items (map (day_item localize store d) l) w
  = (log w (flat_map (day_queries localize d) l) [],
     map (expected_day localize store d) l, None).
Proof.
  revert w; induction l as [|i l IH]; intros w H; cbn [map drain_items flat_map].
  - now rewrite log_nil.
  - cbn [forallb] in H. apply andb_prop in H as [Hi Hl].
    rewrite day_item_spec, (day_ok_window _ _ Hi), (IH _ Hl), log_log.
    reflexivity.
Qed.

(** The loop of [collect] over the days [l], when every day is computable. *)
Lemma print_days (store : Store) (d : datetime) (l : list nat) (w : world) :
  forallb (day_ok localize d) l = true ->
  for_items (map (day_item localize store d) l)
    (fun last_day_stats (_ : unit) => print (yaml_day last_day_stats)) tt w
  = (log w (flat_map (day_queries localize d) l)
       (map (fun i => yaml_day (expected_day localize store d i)) l),
     inr tt).
Proof.
  revert w; induction l as [|i l IH]; intros w H; cbn [map for_items flat_map].
  - unfold ret. now rewrite log_nil.
  - cbn [forallb] in H. apply andb_prop in H as [Hi Hl].
    unfold bind at 1. rewrite day_item_spec, (day_ok_window _ _ Hi).
    unfold bind at 1. rewrite print_run, (IH _ Hl), !log_log.
    reflexivity.
Qed.

(** What the loop over the days returns does not depend on the store. *)
Lemma print_days_snd (store : Store) (d : datetime) (l : list nat) (w : world) :
  snd (for_items (map (day_item localize store d) l)
         (fun last_day_stats (_ : unit) => print (yaml_day last_day_stats)) tt w)
  = match first_error localize d l with
    | Some e => inl e
    | None => inr tt
    end.
Proof.
  revert w; induction l as [|i l IH]; intros w; cbn [map for_items first_error].
  - reflexivity.
  - rewrite snd_bind, day_item_spec.
    destruct (day_window localize d i) as [e|s]; cbn [fst snd]; [reflexivity|].
    rewrite snd_bind, print_run. cbn [fst snd]. apply IH.
Qed.

(** Pulling the snapshot rows [rows]: one lazy load and one summary each. *)
Lemma drain_snapshot_rows (store : Store) (rows : list SiriSnapshot) (w : world) :
  drain_items
    (map (fun x =>
            issue (LoadVehicleLocations (siri_snapshot_pk x)) ;;;
            ret (summary_of store x)) rows) w
  = (log w (map (fun x => LoadVehicleLocations (siri_snapshot_pk x)) rows) [],
     map (summary_of store) rows, None).
Proof.
  revert w; induction rows as [|x rows IH]; intros w; cbn [map drain_items].
  - now rewrite log_nil.
  - unfold bind at 1. rewrite issue_run. unfold ret at 1.
    rewrite IH, log_log. reflexivity.
Qed.

(** The loop of [collect] over the snapshot rows returns what [latest_of]
    computes from their identifiers. *)
Lemma track_latest_snd (store : Store) (rows : list SiriSnapshot)
    (acc : option Z) (w : world) :
  snd (for_items
         (map (fun x =>
                 issue (LoadVehicleLocations (siri_snapshot_pk x)) ;;;
                 ret (summary_of store x)) rows)
         (fun siri_snapshot latest_snapshot_datetime =>
            snapshot_datetime <-
              lift (parse_siri_snapshot_id (summary_snapshot_id siri_snapshot)) ;;
            let latest_snapshot_datetime :=
              match latest_snapshot_datetime with
              | None => Some snapshot_datetime
              | Some latest =>
                  if latest <? snapshot_datetime then Some snapshot_datetime
                  else Some latest
              end in
            print (yaml_snapshot siri_snapshot) ;;;
            ret latest_snapshot_datetime)
         acc w)
  = latest_of parse_siri_snapshot_id (map snapshot_id rows) acc.
Proof.
  revert acc w; induction rows as [|x rows IH]; intros acc w;
    cbn [map for_items latest_of]; [reflexivity|].
  rewrite snd_bind. unfold bind at 1. rewrite issue_run.
  unfold ret at 1. cbn [fst snd].
  rewrite snd_bind, snd_bind. cbn [summary_of summary_snapshot_id].
  destruct (parse_siri_snapshot_id (snapshot_id x)) as [e|t];
    cbn [lift]; [reflexivity|].
  unfold ret at 1. cbn [fst snd].
  rewrite snd_bind, print_run. cbn [fst snd]. unfold ret at 1. cbn [fst snd].
  destruct acc as [latest|]; [destruct (latest <? t)|]; apply IH.
Qed.

(** The return value of [collect] in print mode. *)
Lemma collect_print_snd (store : Store) (latest_limit last_days_limit : nat)
    (last_days_from : option datetime) (validate : bool) (w : world) :
  snd (collect localize parse_siri_snapshot_id today now_utc store
         latest_limit last_days_limit last_days_from true validate w)
  = match first_error localize (start_date today last_days_from)
            (seq 0 last_days_limit) with
    | Some e => inl e
    | None =>
        match latest_of parse_siri_snapshot_id
                (map snapshot_id (latest_siri_snapshots store latest_limit))
                None with
        | inl e => inl e
        | inr latest => inr (ReturnBool (verdict now_utc validate latest))
        end
    end.
Proof.
  unfold collect, for_, last_day_stats_iterator, siri_snapshots_iterator.
  cbn [num_siri_snapshots res_last_day_stats_iterator
       res_siri_snapshots_iterator].
  fold (start_date today last_days_from).
  rewrite snd_bind. unfold bind at 1. rewrite issue_run.
  unfold ret at 1. cbn [fst snd].
  rewrite snd_bind, print_run. cbn [fst snd].
  rewrite snd_bind, print_run. cbn [fst snd].
  rewrite snd_bind.
  match goal with
  | |- context [bind (ret ?l) ?k ?w0] =>
      change (bind (ret l) k w0) with (k l w0)
  end.
  cbv beta. rewrite print_days_snd.
  destruct (first_error localize (start_date today last_days_from)
              (seq 0 last_days_limit)) as [e|]; [reflexivity|].
  rewrite snd_bind, print_run. cbn [fst snd].
  rewrite snd_bind.
  match goal with
  | |- context [snd (bind (issue ?q ;;; ret ?l) ?k ?w0)] =>
      change (bind (issue q ;;; ret l) k w0)
        with (k l (fst (issue q w0)))
  end.
  cbv beta. rewrite track_latest_snd.
  destruct (latest_of parse_siri_snapshot_id
              (map snapshot_id (latest_siri_snapshots store latest_limit)) None)
    as [e|latest]; [reflexivity|].
  unfold verdict.
  destruct validate; [|reflexivity].
  destruct latest as [l|].
  - destruct (l <? now_utc - one_hour); reflexivity.
  - reflexivity.
Qed.

End Runs.

(* ================================================================= *)
(** ** Filters and joins *)

Lemma holds_and (a b : Sql.sqlbool) :
  Sql.holds (Sql.and_ a b) = Sql.holds a && Sql.holds b.
Proof. destruct a as [[|]|], b as [[|]|]; reflexivity. Qed.

Lemma holds_eq_true (flag : option bool) :
  Sql.holds (Sql.eq_true flag) = flag_is true flag.
Proof. destruct flag as [[|]|]; reflexivity. Qed.

Lemma holds_ne_true (flag : option bool) :
  Sql.holds (Sql.ne_true flag) = flag_is false flag.
Proof. destruct flag as [[|]|]; reflexivity. Qed.

Lemma holds_window (s t : Z) :
  Sql.holds (Sql.and_ (Sql.le t (s + one_day)) (Sql.ge t s))
  = in_closed_window s t.
Proof.
  rewrite holds_and. unfold Sql.le, Sql.ge, Sql.holds, in_closed_window.
  rewrite Z.geb_leb.
  destruct (t <=? s + one_day), (s <=? t); reflexivity.
Qed.

Lemma holds_ride_in_window (s : Z) (r : Ride) :
  Sql.holds (ride_in_window s (s + one_day) r)
  = in_closed_window s (scheduled_start_time r).
Proof. apply holds_window. Qed.

Lemma filter_none {A : Type} (p : A -> bool) (l : list A) :
  Forall (fun x => p x = false) l -> filter p l = [].
Proof.
  induction 1 as [|x l' Hx _ IH]; cbn [filter]; [reflexivity|].
  now rewrite Hx.
Qed.

Lemma filter_app_none {A : Type} (p : A -> bool) (l extra : list A) :
  Forall (fun x => p x = false) extra -> filter p (l ++ extra) = filter p l.
Proof.
  intros H. now rewrite filter_app, (filter_none _ _ H), app_nil_r.
Qed.

Lemma existsb_app_none {A : Type} (p : A -> bool) (l extra : list A) :
  Forall (fun x => p x = false) extra -> existsb p (l ++ extra) = existsb p l.
Proof.
  intros H. rewrite existsb_app.
  replace (existsb p extra) with false; [apply orb_false_r|].
  symmetry. induction H as [|x l' Hx _ IH]; cbn [existsb]; [reflexivity|].
  now rewrite Hx.
Qed.

(** Rows added on the right of a join that the filter rejects do not show in
    the filtered join. *)
Lemma filter_join_app_none {A B : Type} (on : A -> B -> Sql.sqlbool)
    (p : A * B -> bool) (l : list A) (r extra : list B) :
  (forall a, Forall (fun b => p (a, b) = false) extra) ->
  filter p (Sql.join on l (r ++ extra)) = filter p (Sql.join on l r).
Proof.
  intros H. unfold Sql.join.
  induction l as [|a l IH]; cbn [flat_map]; [reflexivity|].
  rewrite !filter_app, IH. f_equal.
  unfold Sql.where_. rewrite filter_app, map_app, filter_app.
  rewrite (filter_none p (map (pair a) (filter _ extra))); [apply app_nil_r|].
  apply Forall_forall. intros [a' b] Hin.
  apply in_map_iff in Hin as [b' [E Hb]]. inversion E; subst a' b'.
  apply filter_In in Hb as [Hb _].
  specialize (H a). rewrite Forall_forall in H. now apply H.
Qed.

(** The rides of a window split by flag: true, false and NULL. *)
Lemma rides_split (l : list Ride) (s : Z) :
  (List.length
     (filter (fun r => in_closed_window s (scheduled_start_time r)
                       && flag_is true (ride_is_from_gtfs r)) l)
   + List.length
       (filter (fun r => in_closed_window s (scheduled_start_time r)
                         && flag_is false (ride_is_from_gtfs r)) l)
   + List.length
       (filter (fun r => in_closed_window s (scheduled_start_time r)
                         && flag_is_null (ride_is_from_gtfs r)) l)
   = List.length
       (filter (fun r => in_closed_window s (scheduled_start_time r)) l))%nat.
Proof.
  induction l as [|r l IH]; cbn [filter]; [reflexivity|].
  destruct (in_closed_window s (scheduled_start_time r)); cbn [andb];
    [|exact IH].
  destruct (ride_is_from_gtfs r) as [[|]|];
    cbn [flag_is flag_is_null Bool.eqb List.length]; lia.
Qed.

Lemma q_ride_filter (store : Store) (s : Z) (b : bool) :
  q_ride store s (s + one_day) (if b then Sql.eq_true else Sql.ne_true)
  = filter (fun r => in_closed_window s (scheduled_start_time r)
                     && flag_is b (ride_is_from_gtfs r)) (rides store).
Proof.
  unfold q_ride, Sql.where_. apply filter_ext. intros r.
  rewrite holds_and, holds_ride_in_window. f_equal.
  destruct b; [apply holds_eq_true | apply holds_ne_true].
Qed.

Lemma q_by_etl_started_filter (store : Store) (s : Z) :
  q_siri_snapshot_by_etl_started store s (s + one_day)
  = filter (fun x => in_closed_window s (etl_start_time x))
      (siri_snapshots store).
Proof.
  unfold q_siri_snapshot_by_etl_started, Sql.where_. apply filter_ext.
  intros x. apply holds_window.
Qed.

Lemma q_by_snapshot_id_filter (store : Store) (y m d : Z) :
  q_siri_snapshot_by_snapshot_id store (strftime_ymd y m d)
  = filter (fun x => String.prefix (strftime_ymd y m d) (snapshot_id x))
      (siri_snapshots store).
Proof.
  unfold q_siri_snapshot_by_snapshot_id, Sql.where_. apply filter_ext.
  intros x. unfold snapshot_id_like, Sql.like_, Sql.holds.
  rewrite like_day_prefix.
  now destruct (String.prefix (strftime_ymd y m d) (snapshot_id x)).
Qed.

(* ================================================================= *)
(** ** The claims *)

(** C1 (as stated, refuted): with [print_results=False] and [validate=True]
    the call does fail on the assertion, but the statement counting the
    snapshots has reached the store by then. *)
Lemma C1_counter_query_precedes_assertion :
  let run :=
    collect Example.ist_localize (Example.parse_table []) Example.jan1 0
      empty_store 10 5 None false true initial_world in
  snd run = inl (AssertionError "validate is not supported if print_results is False")
  /\ queries (fst run) = [CountSiriSnapshots]
  /\ queries (fst run) <> queries initial_world.
Proof. repeat split. discriminate. Qed.

(** C1 (amended): for every invocation of [collect] with
    [print_results=False] and [validate=True] the call fails with the
    assertion error and returns nothing; by then exactly one statement, the
    count of all snapshots, has been issued, nothing has been printed, and
    neither iterator has been advanced. *)
Theorem C1_assertion_after_count_query
    (localize : Z -> exn + Z) (parse : string -> exn + Z)
    (today : datetime) (now_utc : Z) (store : Store)
    (latest_limit last_days_limit : nat) (last_days_from : option datetime)
    (w : world) :
  collect localize parse today now_utc store latest_limit last_days_limit
    last_days_from false true w
  = (log w [CountSiriSnapshots] [],
     inl (AssertionError "validate is not supported if print_results is False")).
Proof.
  unfold collect, bind. rewrite issue_run. reflexivity.
Qed.

(** C2 (as stated, refuted): a snapshot whose [etl_start_time] is exactly the
    end of the window of 2024-01-01 is counted in that day, and so is a ride
    scheduled at that instant. *)
Lemma C2_counter_window_end_is_counted :
  let x := Example.snapshot 1 "2024/01/02/00/00" Example.jan2_start in
  let r := Example.ride 1 1 Example.jan2_start (Some true) in
  let store :=
    {| siri_snapshots := [x]; vehicle_locations := []; rides := [r];
       routes := []; route_stops := []; stops := [] |} in
  day_window Example.ist_localize Example.jan1 0 = inr Example.jan1_start
  /\ etl_start_time x = Example.jan1_start + one_day
  /\ scheduled_start_time r = Example.jan1_start + one_day
  /\ in_half_open_window Example.jan1_start (etl_start_time x) = false
  /\ exists w' stats,
       drain (last_day_stats_iterator Example.ist_localize Example.jan1
                store 1 (Some Example.jan1)) initial_world
       = (w', [stats], None)
       /\ siri_snapshot_by_etl_started stats = 1%nat
       /\ ride_is_from_gtfs_count stats = 1%nat.
Proof.
  cbv zeta. repeat split. eexists. eexists. repeat split.
Qed.

(** C2 (amended): the window of a day is closed at both ends.  Whenever day
    [i] counted back from [d] is computable and its window starts at [s], the
    iterator yields for it a record whose by-timestamp snapshot count is the
    number of snapshots with [s <= etl_start_time <= s + 24h], and whose ride
    counts are the numbers of rides with
    [s <= scheduled_start_time <= s + 24h] and the flag true, respectively
    false; an instant equal to the window start is in the window, and so is
    one equal to the window end. *)
Theorem C2_day_window_is_closed
    (localize : Z -> exn + Z) (store : Store) (d : datetime) (i : nat)
    (s : Z) (w : world) :
  day_window localize d i = inr s ->
  exists w' stats,
    day_item localize store d i w = (w', inr stats)
    /\ siri_snapshot_by_etl_started stats
       = List.length
           (filter (fun x => in_closed_window s (etl_start_time x))
              (siri_snapshots store))
    /\ ride_is_from_gtfs_count stats
       = List.length
           (filter (fun r => in_closed_window s (scheduled_start_time r)
                             && flag_is true (ride_is_from_gtfs r))
              (rides store))
    /\ ride_not_from_gtfs_count stats
       = List.length
           (filter (fun r => in_closed_window s (scheduled_start_time r)
                             && flag_is false (ride_is_from_gtfs r))
              (rides store))
    /\ in_closed_window s s = true
    /\ in_closed_window s (s + one_day) = true.
Proof.
  intros H. rewrite day_item_spec. unfold expected_day, day_start. rewrite H.
  eexists. eexists. split; [reflexivity|].
  unfold day_record, day_counts, Sql.count.
  cbn [siri_snapshot_by_etl_started ride_is_from_gtfs_count
       ride_not_from_gtfs_count].
  rewrite q_by_etl_started_filter.
  rewrite (q_ride_filter store s true), (q_ride_filter store s false).
  repeat split; unfold in_closed_window, one_day;
    apply andb_true_intro; split; apply Z.leb_le; lia.
Qed.

Lemma C2_day_window_is_closed_witness :
  exists w' stats,
    day_item Example.ist_localize
      (Example.with_snapshots
         [Example.snapshot 1 "2024/01/02/00/00" Example.jan2_start])
      Example.jan1 0 initial_world = (w', inr stats)
    /\ siri_snapshot_by_etl_started stats = 1%nat.
Proof.
  destruct (C2_day_window_is_closed Example.ist_localize
              (Example.with_snapshots
                 [Example.snapshot 1 "2024/01/02/00/00" Example.jan2_start])
              Example.jan1 0 Example.jan1_start initial_world eq_refl)
    as [w' [stats [Hrun [Hcount _]]]].
  exists w', stats. split; [exact Hrun | exact Hcount].
Defined.

(** The two ride counts of a day and the rides of the window whose flag is
    NULL make up the rides of the window. *)
Lemma ride_counts_with_nulls (store : Store) (date : datetime) (s : Z) :
  (ride_is_from_gtfs_count (day_record store date s)
   + ride_not_from_gtfs_count (day_record store date s)
   + List.length
       (filter (fun r => flag_is_null (ride_is_from_gtfs r))
          (rides_in_window store s))
   = List.length (rides_in_window store s))%nat.
Proof.
  unfold day_record, day_counts, Sql.count, rides_in_window.
  cbn [ride_is_from_gtfs_count ride_not_from_gtfs_count].
  rewrite (q_ride_filter store s true), (q_ride_filter store s false).
  rewrite <- (rides_split (rides store) s). f_equal.
  induction (rides store) as [|r l IH]; cbn [filter]; [reflexivity|].
  destruct (in_closed_window s (scheduled_start_time r)); cbn [andb filter];
    [|exact IH].
  destruct (flag_is_null (ride_is_from_gtfs r)); cbn [List.length]; now rewrite IH.
Qed.

(** Where no ride carries a NULL flag, the split is complete. *)
Lemma ride_counts_complete_without_nulls (store : Store) (date : datetime)
    (s : Z) :
  Forall (fun r => ride_is_from_gtfs r <> None) (rides store) ->
  (ride_is_from_gtfs_count (day_record store date s)
   + ride_not_from_gtfs_count (day_record store date s)
   = List.length (rides_in_window store s))%nat.
Proof.
  intros H. rewrite <- (ride_counts_with_nulls store date s).
  rewrite filter_none; [cbn [List.length]; lia|].
  apply Forall_forall. intros r Hr.
  unfold rides_in_window in Hr. apply filter_In in Hr as [Hr _].
  rewrite Forall_forall in H. specialize (H r Hr).
  now destruct (ride_is_from_gtfs r).
Qed.

(** C3 (the code at the failing input): one ride scheduled an hour into
    2024-01-01 whose flag is NULL.  It is in the window, but neither
    [is_from_gtfs = true] nor [is_from_gtfs != true] is TRUE on it, so both
    counts are 0 and they do not add up to the one ride of the day. *)
Theorem C3_null_flag_ride_in_neither_count :
  let r := Example.ride 1 1 (Example.jan1_start + one_hour) None in
  let store := Example.with_rides [r] in
  rides_in_window store Example.jan1_start = [r]
  /\ exists w' stats,
       drain (last_day_stats_iterator Example.ist_localize Example.jan1
                store 1 (Some Example.jan1)) initial_world
       = (w', [stats], None)
       /\ ride_is_from_gtfs_count stats = 0%nat
       /\ ride_not_from_gtfs_count stats = 0%nat
       /\ (ride_is_from_gtfs_count stats + ride_not_from_gtfs_count stats)%nat
          <> List.length (rides_in_window store Example.jan1_start).
Proof.
  cbv zeta. split; [reflexivity|].
  eexists. eexists. split; [reflexivity|].
  repeat split. discriminate.
Qed.

(** Snapshots and rides outside a day, added to the store, leave every query
    of that day as it was. *)
Lemma day_counts_add_records (store : Store) (xs : list SiriSnapshot)
    (rs : list Ride) (date : datetime) (s : Z) (y m d : Z) :
  Forall (fun x => in_closed_window s (etl_start_time x) = false
                   /\ String.prefix (strftime_ymd y m d) (snapshot_id x) = false)
    xs ->
  Forall (fun r => in_closed_window s (scheduled_start_time r) = false) rs ->
  day_counts (add_records store xs rs) date s (s + one_day) (strftime_ymd y m d)
  = day_counts store date s (s + one_day) (strftime_ymd y m d).
Proof.
  intros Hxs Hrs.
  assert (Hlike : Forall (fun x =>
            Sql.holds (snapshot_id_like (strftime_ymd y m d) x) = false) xs).
  { eapply Forall_impl; [|exact Hxs]. intros x [_ Hp].
    unfold snapshot_id_like, Sql.like_, Sql.holds.
    now rewrite like_day_prefix, Hp. }
  assert (Hwin : forall r, In r rs ->
            Sql.holds (ride_in_window s (s + one_day) r) = false).
  { intros r Hr. rewrite holds_ride_in_window.
    rewrite Forall_forall in Hrs. now apply Hrs. }
  unfold day_counts. f_equal; unfold Sql.count; f_equal.
  - unfold q_siri_snapshot_by_etl_started, Sql.where_. cbn [add_records siri_snapshots].
    apply filter_app_none. eapply Forall_impl; [|exact Hxs].
    intros x [Hw _]. now rewrite holds_window.
  - unfold q_siri_snapshot_by_snapshot_id, Sql.where_. cbn [add_records siri_snapshots].
    now apply filter_app_none.
  - unfold q_vehicle_location_by_snapshot_id, Sql.where_, Sql.exists_.
    cbn [add_records siri_snapshots vehicle_locations].
    apply filter_ext. intros v. rewrite existsb_app_none; [reflexivity|].
    eapply Forall_impl; [|exact Hlike]. intros x Hx.
    now rewrite holds_and, Hx, andb_false_r.
  - unfold q_ride, Sql.where_. cbn [add_records rides].
    apply filter_app_none. apply Forall_forall. intros r Hr.
    now rewrite holds_and, (Hwin r Hr).
  - unfold q_ride, Sql.where_. cbn [add_records rides].
    apply filter_app_none. apply Forall_forall. intros r Hr.
    now rewrite holds_and, (Hwin r Hr).
  - unfold q_route, Sql.where_, Sql.exists_. cbn [add_records rides routes].
    apply filter_ext. intros ro. rewrite existsb_app_none; [reflexivity|].
    apply Forall_forall. intros r Hr.
    now rewrite holds_and, (Hwin r Hr), andb_false_r.
  - unfold q_route, Sql.where_, Sql.exists_. cbn [add_records rides routes].
    apply filter_ext. intros ro. rewrite existsb_app_none; [reflexivity|].
    apply Forall_forall. intros r Hr.
    now rewrite holds_and, (Hwin r Hr), andb_false_r.
  - unfold q_route_stop, route_stop_join_route_join_ride, Sql.where_.
    cbn [add_records rides routes route_stops].
    apply filter_join_app_none. intros [rs' ro]. apply Forall_forall.
    intros r Hr. now rewrite holds_and, (Hwin r Hr).
  - unfold q_route_stop, route_stop_join_route_join_ride, Sql.where_.
    cbn [add_records rides routes route_stops].
    apply filter_join_app_none. intros [rs' ro]. apply Forall_forall.
    intros r Hr. now rewrite holds_and, (Hwin r Hr).
  - unfold q_stop, stop_join_route_stop_join_route_join_ride, Sql.where_.
    cbn [add_records rides routes route_stops stops].
    apply filter_join_app_none. intros [[st rs'] ro]. apply Forall_forall.
    intros r Hr. now rewrite holds_and, (Hwin r Hr).
  - unfold q_stop, stop_join_route_stop_join_route_join_ride, Sql.where_.
    cbn [add_records rides routes route_stops stops].
    apply filter_join_app_none. intros [[st rs'] ro]. apply Forall_forall.
    intros r Hr. now rewrite holds_and, (Hwin r Hr).
Qed.

(** C4 (as stated, refuted): a snapshot whose [etl_start_time] is noon of
    2024-01-01, inside the window of that day and outside the window of
    2024-01-02, changes the by-identifier snapshot count of 2024-01-02 in the
    same run when its identifier begins with [2024/01/02/]. *)
Lemma C4_counter_identifier_crosses_windows :
  let x := Example.snapshot 7 "2024/01/02/09/00"
             (Example.jan1_start + 12 * one_hour) in
  let run store :=
    drain (last_day_stats_iterator Example.ist_localize Example.jan1
             store 2 (Some Example.jan2)) initial_world in
  let days store := snd (fst (run store)) in
  in_closed_window Example.jan1_start (etl_start_time x) = true
  /\ in_closed_window Example.jan2_start (etl_start_time x) = false
  /\ map date (days empty_store) = [Example.jan2; Example.jan1]
  /\ map date (days (add_records empty_store [x] []))
     = [Example.jan2; Example.jan1]
  /\ map siri_snapshot_by_snapshot_id (days empty_store) = [0%nat; 0%nat]
  /\ map siri_snapshot_by_snapshot_id (days (add_records empty_store [x] []))
     = [1%nat; 0%nat]
  /\ days empty_store <> days (add_records empty_store [x] []).
Proof.
  vm_compute. repeat split. discriminate.
Qed.

(** C4 (amended): for every day of a run whose window starts at [s], adding
    to the store snapshots whose [etl_start_time] lies outside the closed
    window [s .. s + 24h] and whose identifier does not begin with the day's
    date prefix, and rides whose [scheduled_start_time] lies outside that
    closed window, changes no count of that day's record: the iterator
    yields the same record. *)
Theorem C4_records_outside_a_day_leave_it_unchanged
    (localize : Z -> exn + Z) (store : Store) (xs : list SiriSnapshot)
    (rs : list Ride) (d : datetime) (i : nat) (s : Z) (w : world) :
  day_window localize d i = inr s ->
  Forall (fun x =>
            in_closed_window s (etl_start_time x) = false
            /\ String.prefix
                 (strftime_ymd (year (day_date d i)) (month (day_date d i))
                    (day (day_date d i)))
                 (snapshot_id x) = false) xs ->
  Forall (fun r => in_closed_window s (scheduled_start_time r) = false) rs ->
  exists w' stats,
    day_item localize store d i w = (w', inr stats)
    /\ day_item localize (add_records store xs rs) d i w = (w', inr stats).
Proof.
  intros H Hxs Hrs. rewrite !day_item_spec, H.
  eexists. eexists. split; [reflexivity|].
  unfold expected_day, day_start, day_record. rewrite H.
  now rewrite day_counts_add_records.
Qed.

Lemma C4_records_outside_a_day_leave_it_unchanged_witness :
  exists w' stats,
    day_item Example.ist_localize empty_store Example.jan2 0 initial_world
    = (w', inr stats)
    /\ day_item Example.ist_localize
         (add_records empty_store
            [Example.snapshot 7 "2024/01/01/09/00"
               (Example.jan1_start + 12 * one_hour)]
            [Example.ride 1 1 (Example.jan1_start + one_hour) (Some true)])
         Example.jan2 0 initial_world
       = (w', inr stats).
Proof.
  apply (C4_records_outside_a_day_leave_it_unchanged Example.ist_localize
           empty_store
           [Example.snapshot 7 "2024/01/01/09/00"
              (Example.jan1_start + 12 * one_hour)]
           [Example.ride 1 1 (Example.jan1_start + one_hour) (Some true)]
           Example.jan2 0 Example.jan2_start initial_world).
  - reflexivity.
  - constructor; [split; reflexivity | constructor].
  - constructor; [reflexivity | constructor].
Defined.

(** The tracked instant is the maximum of the parsed ones. *)
Lemma latest_of_some (parse : string -> exn + Z) (ids : list string)
    (ts : list Z) (l : Z) :
  map parse ids = map inr ts ->
  latest_of parse ids (Some l) = inr (Some (maximum l ts)).
Proof.
  revert ts l; induction ids as [|id ids IH]; intros [|t ts] l H;
    try discriminate; cbn [latest_of maximum fold_left]; [reflexivity|].
  cbn [map] in H. injection H as Hid Hrest. rewrite Hid.
  replace (if l <? t then Some t else Some l) with (Some (Z.max l t)).
  - now apply IH.
  - unfold Z.max, Z.ltb. now destruct (l ?= t).
Qed.

Lemma latest_of_none (parse : string -> exn + Z) (ids : list string)
    (t : Z) (ts : list Z) :
  map parse ids = map inr (t :: ts) ->
  latest_of parse ids None = inr (Some (maximum t ts)).
Proof.
  destruct ids as [|id ids]; [discriminate|]. cbn [map latest_of].
  intros H. injection H as Hid Hrest. rewrite Hid.
  now apply latest_of_some.
Qed.

(** The verdict of [collect] when every day is computable and every
    identifier parses. *)
Lemma collect_validate_snd
    (localize : Z -> exn + Z) (parse : string -> exn + Z)
    (today : datetime) (now_utc : Z) (store : Store)
    (latest_limit last_days_limit : nat) (last_days_from : option datetime)
    (t : Z) (ts : list Z) (w : world) :
  days_ok localize (start_date today last_days_from) last_days_limit = true ->
  map parse (map snapshot_id (latest_siri_snapshots store latest_limit))
  = map inr (t :: ts) ->
  snd (collect localize parse today now_utc store latest_limit
         last_days_limit last_days_from true true w)
  = inr (ReturnBool (negb (maximum t ts <? now_utc - one_hour))).
Proof.
  intros Hdays Hparse. rewrite collect_print_snd.
  rewrite (first_error_ok _ _ _ Hdays), (latest_of_none _ _ _ _ Hparse).
  reflexivity.
Qed.

(** C5: when every requested day is computable and the identifiers of the
    yielded summaries parse to the instants [t :: ts] (a non-empty
    inventory), [collect] in print mode with validation returns false exactly
    when the maximum of those instants is before the current UTC instant
    minus one hour.  In particular, for a single summary, an identifier that
    parses to now minus two hours gives false, and one that parses to now
    minus ten minutes gives true. *)
Theorem C5_freshness_is_maximum_against_one_hour
    (localize : Z -> exn + Z) (parse : string -> exn + Z)
    (today : datetime) (now_utc : Z) (store : Store)
    (latest_limit last_days_limit : nat) (last_days_from : option datetime)
    (t : Z) (ts : list Z) (w : world) :
  days_ok localize (start_date today last_days_from) last_days_limit = true ->
  map parse (map snapshot_id (latest_siri_snapshots store latest_limit))
  = map inr (t :: ts) ->
  let result :=
    snd (collect localize parse today now_utc store latest_limit
           last_days_limit last_days_from true true w) in
  result = inr (ReturnBool (negb (maximum t ts <? now_utc - one_hour)))
  /\ (result = inr (ReturnBool false)
      <-> maximum t ts < now_utc - one_hour)
  /\ (ts = [] -> t = now_utc - 2 * one_hour -> result = inr (ReturnBool false))
  /\ (ts = [] -> t = now_utc - ten_minutes -> result = inr (ReturnBool true)).
Proof.
  intros Hdays Hparse result.
  assert (E : result
              = inr (ReturnBool (negb (maximum t ts <? now_utc - one_hour))))
    by (apply collect_validate_snd; assumption).
  split; [exact E|]. rewrite E. split; [|split].
  - destruct (maximum t ts <? now_utc - one_hour) eqn:C; cbn [negb].
    + apply Z.ltb_lt in C. tauto.
    + apply Z.ltb_ge in C. split; [discriminate | lia].
  - intros -> ->. cbn [maximum fold_left].
    replace (now_utc - 2 * one_hour <? now_utc - one_hour) with true;
      [reflexivity|].
    symmetry. apply Z.ltb_lt. unfold one_hour. lia.
  - intros -> ->. cbn [maximum fold_left].
    replace (now_utc - ten_minutes <? now_utc - one_hour) with false;
      [reflexivity|].
    symmetry. apply Z.ltb_ge. unfold one_hour, ten_minutes. lia.
Qed.

Lemma C5_freshness_is_maximum_against_one_hour_witness :
  snd (collect Example.ist_localize
         (Example.parse_table
            [("2024/01/01/10/00"%string,
              Example.jan1_start + 12 * one_hour)])
         Example.jan1 (Example.jan1_start + 14 * one_hour)
         (Example.with_snapshots
            [Example.snapshot 1 "2024/01/01/10/00"
               (Example.jan1_start + 12 * one_hour)])
         10 1 (Some Example.jan1) true true initial_world)
  = inr (ReturnBool false).
Proof.
  destruct (C5_freshness_is_maximum_against_one_hour Example.ist_localize
              (Example.parse_table
                 [("2024/01/01/10/00"%string,
                   Example.jan1_start + 12 * one_hour)])
              Example.jan1 (Example.jan1_start + 14 * one_hour)
              (Example.with_snapshots
                 [Example.snapshot 1 "2024/01/01/10/00"
                    (Example.jan1_start + 12 * one_hour)])
              10 1 (Some Example.jan1)
              (Example.jan1_start + 12 * one_hour) [] initial_world
              eq_refl eq_refl) as [E _].
  exact E.
Defined.

Lemma bind_run {A B : Type} (c : M A) (k : A -> M B) (w w' : world) (a : A) :
  c w = (w', inr a) -> bind c k w = k a w'.
Proof. intros H. unfold bind. now rewrite H. Qed.

Lemma issue_ret_run {A : Type} (q : query) (a : A) (w : world) :
  (issue q ;;; ret a) w = (log w [q] [], inr a).
Proof. unfold bind. now rewrite issue_run. Qed.

Lemma yaml_days_are_not_staleness_lines {A : Type} (f : A -> DayStats)
    (l : list A) :
  forallb (fun x => negb (is_staleness_line x)) (map (fun i => yaml_day (f i)) l)
  = true.
Proof. induction l as [|a l IH]; [reflexivity | exact IH]. Qed.

(** C6: when every requested day is computable and the inventory query
    yields no snapshot, [collect] in print mode with validation returns
    false without raising; the last line it prints is the "no latest
    snapshot" diagnostic, and none of the lines before it is the staleness
    diagnostic. *)
Theorem C6_empty_inventory_fails_with_no_snapshot_diagnostic
    (localize : Z -> exn + Z) (parse : string -> exn + Z)
    (today : datetime) (now_utc : Z) (store : Store)
    (latest_limit last_days_limit : nat) (last_days_from : option datetime)
    (w : world) :
  days_ok localize (start_date today last_days_from) last_days_limit = true ->
  latest_siri_snapshots store latest_limit = [] ->
  exists w' ls,
    collect localize parse today now_utc store latest_limit last_days_limit
      last_days_from true true w
    = (w', inr (ReturnBool false))
    /\ printed w' = printed w ++ ls ++ [validation_error_no_latest]
    /\ forallb (fun l => negb (is_staleness_line l)) ls = true.
Proof.
  intros Hdays Hrows.
  unfold collect, for_, last_day_stats_iterator, siri_snapshots_iterator.
  cbn [num_siri_snapshots res_last_day_stats_iterator
       res_siri_snapshots_iterator].
  fold (start_date today last_days_from). rewrite Hrows. cbn [map].
  erewrite bind_run by apply issue_ret_run.
  erewrite bind_run by apply print_run.
  erewrite bind_run by apply print_run.
  erewrite bind_run;
    [|erewrite bind_run by reflexivity; apply print_days; exact Hdays].
  erewrite bind_run by apply print_run.
  erewrite bind_run by (erewrite bind_run by apply issue_ret_run; reflexivity).
  cbv beta iota.
  erewrite bind_run by apply print_run.
  unfold ret. rewrite !log_log.
  eexists.
  exists ([total_siri_snapshots (Sql.count (siri_snapshots store));
           last_days_header last_days_limit]
          ++ map (fun i =>
                    yaml_day
                      (expected_day localize store
                         (start_date today last_days_from) i))
               (seq 0 last_days_limit)
          ++ [latest_siri_snapshots_header latest_limit]).
  split; [reflexivity|]. cbn [log printed app].
  split.
  - f_equal. cbn [app]. f_equal. f_equal.
    rewrite <- app_assoc. reflexivity.
  - cbn [app forallb is_staleness_line negb andb].
    rewrite forallb_app, yaml_days_are_not_staleness_lines.
    reflexivity.
Qed.

Lemma C6_empty_inventory_fails_with_no_snapshot_diagnostic_witness :
  exists w' ls,
    collect Example.ist_localize (Example.parse_table []) Example.jan1
      (Example.jan1_start + 14 * one_hour) empty_store 10 1
      (Some Example.jan1) true true initial_world
    = (w', inr (ReturnBool false))
    /\ printed w' = printed initial_world ++ ls ++ [validation_error_no_latest]
    /\ forallb (fun l => negb (is_staleness_line l)) ls = true.
Proof.
  exact (C6_empty_inventory_fails_with_no_snapshot_diagnostic
           Example.ist_localize (Example.parse_table []) Example.jan1
           (Example.jan1_start + 14 * one_hour) empty_store 10 1
           (Some Example.jan1) initial_world eq_refl eq_refl).
Defined.

(** The prefix of 2024-01-02. *)
Lemma strftime_jan2 :
  strftime_ymd (year Example.jan2) (month Example.jan2) (day Example.jan2)
  = "2024/01/02/"%string.
Proof. reflexivity. Qed.

(** The by-identifier count reads the identifier only: it is the number of
    snapshots whose identifier begins with the date as [strftime] formats
    it. *)
Lemma by_identifier_count_reads_the_prefix
    (localize : Z -> exn + Z) (store : Store) (d : datetime) (i : nat)
    (s : Z) (w : world) :
  day_window localize d i = inr s ->
  let prefix :=
    strftime_ymd (year (day_date d i)) (month (day_date d i))
      (day (day_date d i)) in
  exists w' stats,
    day_item localize store d i w = (w', inr stats)
    /\ date stats = day_date d i
    /\ siri_snapshot_by_snapshot_id stats
       = List.length
           (filter (fun x => String.prefix prefix (snapshot_id x))
              (siri_snapshots store))
    /\ forall x,
         In x (siri_snapshots store) ->
         in_closed_window s (etl_start_time x) = true ->
         String.prefix prefix (snapshot_id x) = false ->
         In x (q_siri_snapshot_by_etl_started store s (s + one_day))
         /\ ~ In x (q_siri_snapshot_by_snapshot_id store prefix).
Proof.
  intros H prefix. rewrite day_item_spec. unfold expected_day, day_start.
  rewrite H. eexists. eexists. split; [reflexivity|].
  split; [reflexivity|]. split.
  - unfold day_record, day_counts, Sql.count.
    cbn [siri_snapshot_by_snapshot_id]. fold prefix.
    unfold prefix. now rewrite q_by_snapshot_id_filter.
  - intros x Hin Hwin Hpre. split.
    + rewrite q_by_etl_started_filter. apply filter_In. now split.
    + unfold prefix. rewrite q_by_snapshot_id_filter. intros Hx.
      apply filter_In in Hx as [_ Hx]. fold prefix in Hx.
      rewrite Hpre in Hx. discriminate.
Qed.

(** From the year 1000 on, [strftime] gives the format [YYYY/MM/DD/]. *)
Lemma strftime_ymd_from_year_1000 (y m d : Z) :
  1000 <= y -> strftime_ymd y m d = yyyy_mm_dd y m d.
Proof.
  intros H. unfold strftime_ymd, yyyy_mm_dd, year_digits.
  replace (y <? 10) with false by (symmetry; apply Z.ltb_ge; lia).
  replace (y <? 100) with false by (symmetry; apply Z.ltb_ge; lia).
  replace (y <? 1000) with false by (symmetry; apply Z.ltb_ge; lia).
  reflexivity.
Qed.

(** C7 (as stated, refuted): on 0001-01-03 the pattern of the day is
    [1/01/03/%], the year being printed without leading zeros.  A snapshot
    whose identifier begins with [0001/01/03/] is not counted, so the count
    is not the number of identifiers that begin with the date formatted as
    [YYYY/MM/DD/]. *)
Lemma C7_counter_year_below_1000 :
  let d := date_of_ymd 1 1 3 in
  let store :=
    Example.with_snapshots [Example.snapshot 1 "0001/01/03/10/00" 0] in
  let days :=
    snd (fst (drain (last_day_stats_iterator Example.ist_localize Example.jan1
                       store 1 (Some d)) initial_world)) in
  yyyy_mm_dd (year d) (month d) (day d) = "0001/01/03/"%string
  /\ strftime_ymd (year d) (month d) (day d) = "1/01/03/"%string
  /\ map siri_snapshot_by_snapshot_id days = [0%nat]
  /\ List.length
       (filter (fun x => String.prefix
                           (yyyy_mm_dd (year d) (month d) (day d))
                           (snapshot_id x))
          (siri_snapshots store)) = 1%nat.
Proof. vm_compute. repeat split. Qed.

(** C7 (amended): for every computable day [d] of the year 1000 or later,
    the record the iterator yields carries that date, and its by-identifier
    snapshot count is the number of snapshots whose identifier begins with
    the date formatted as [YYYY/MM/DD/] (before the year 1000 the year is
    printed without leading zeros, and the match is on that shorter text).
    The match reads the identifier only: a snapshot whose [etl_start_time]
    is in the day's window and whose identifier begins otherwise is selected
    by the by-timestamp query and not by the by-identifier one. *)
Theorem C7_by_identifier_count_matches_yyyy_mm_dd
    (localize : Z -> exn + Z) (store : Store) (d : datetime) (i : nat)
    (s : Z) (w : world) :
  day_window localize d i = inr s ->
  1000 <= year (day_date d i) ->
  let prefix :=
    yyyy_mm_dd (year (day_date d i)) (month (day_date d i))
      (day (day_date d i)) in
  exists w' stats,
    day_item localize store d i w = (w', inr stats)
    /\ date stats = day_date d i
    /\ siri_snapshot_by_snapshot_id stats
       = List.length
           (filter (fun x => String.prefix prefix (snapshot_id x))
              (siri_snapshots store))
    /\ forall x,
         In x (siri_snapshots store) ->
         in_closed_window s (etl_start_time x) = true ->
         String.prefix prefix (snapshot_id x) = false ->
         In x (q_siri_snapshot_by_etl_started store s (s + one_day))
         /\ ~ In x (q_siri_snapshot_by_snapshot_id store
                      (strftime_ymd (year (day_date d i))
                         (month (day_date d i)) (day (day_date d i)))).
Proof.
  intros H Hy prefix.
  pose proof (by_identifier_count_reads_the_prefix localize store d i s w H)
    as P.
  cbv zeta in P. rewrite (strftime_ymd_from_year_1000 _ _ _ Hy) in P.
  rewrite (strftime_ymd_from_year_1000 _ _ _ Hy). exact P.
Qed.

Lemma C7_by_identifier_count_matches_yyyy_mm_dd_witness :
  yyyy_mm_dd (year Example.jan1) (month Example.jan1) (day Example.jan1)
  = "2024/01/01/"%string
  /\ exists w' stats,
       day_item Example.ist_localize
         (Example.with_snapshots
            [Example.snapshot 1 "2024/01/02/09/00"
               (Example.jan1_start + 12 * one_hour);
             Example.snapshot 2 "2024/01/01/09/00"
               (Example.jan1_start + 36 * one_hour)])
         Example.jan1 0 initial_world
       = (w', inr stats)
       /\ siri_snapshot_by_snapshot_id stats = 1%nat.
Proof.
  split; [reflexivity|].
  destruct (C7_by_identifier_count_matches_yyyy_mm_dd Example.ist_localize
              (Example.with_snapshots
                 [Example.snapshot 1 "2024/01/02/09/00"
                    (Example.jan1_start + 12 * one_hour);
                  Example.snapshot 2 "2024/01/01/09/00"
                    (Example.jan1_start + 36 * one_hour)])
              Example.jan1 0 Example.jan1_start initial_world eq_refl)
    as [w' [stats [Hrun [_ [Hcount _]]]]].
  - vm_compute. discriminate.
  - exists w', stats. split; [exact Hrun | exact Hcount].
Defined.

(** C8 (as stated, refuted): started at 0001-01-03 with limit 4, the
    iterator yields two records and then ends with an overflow, the calendar
    having no day before 0001-01-01. *)
Lemma C8_counter_calendar_ends :
  let run :=
    drain (last_day_stats_iterator Example.ist_localize Example.jan1
             empty_store 4 (Some (date_of_ymd 1 1 3))) initial_world in
  datetime_wf (date_of_ymd 1 1 3)
  /\ List.length (snd (fst run)) = 2%nat
  /\ snd run = Some OverflowError
  /\ List.length (snd (fst run)) <> 4%nat.
Proof.
  vm_compute. repeat split; discriminate.
Qed.

(** Whatever the zone, four days counted back from 0001-01-03 cannot all be
    yielded: the fourth date does not exist. *)
Lemma calendar_ends_whatever_the_zone
    (localize : Z -> exn + Z) (today : datetime) (store : Store) (w : world) :
  let run :=
    drain (last_day_stats_iterator localize today store 4
             (Some (date_of_ymd 1 1 3))) w in
  (List.length (snd (fst run)) < 4)%nat /\ snd run <> None.
Proof.
  cbv zeta. unfold drain, last_day_stats_iterator, ret.
  cbn [seq map drain_items].
  rewrite day_item_spec.
  destruct (day_window localize (date_of_ymd 1 1 3) 0);
    [cbn [fst snd List.length]; split; [lia | discriminate]|].
  rewrite day_item_spec.
  destruct (day_window localize (date_of_ymd 1 1 3) 1);
    [cbn [fst snd List.length]; split; [lia | discriminate]|].
  rewrite day_item_spec.
  destruct (day_window localize (date_of_ymd 1 1 3) 2);
    [cbn [fst snd List.length]; split; [lia | discriminate]|].
  rewrite day_item_spec.
  change (day_window localize (date_of_ymd 1 1 3) 3)
    with (@inl exn Z OverflowError).
  cbn [fst snd List.length]. split; [lia | discriminate].
Qed.

Lemma nth_error_map_seq {A : Type} (f : nat -> A) (n i : nat) :
  (i < n)%nat -> nth_error (map f (seq 0 n)) i = Some (f i).
Proof.
  intros H. rewrite nth_error_map.
  rewrite (nth_error_nth' (seq 0 n) 0%nat) by (now rewrite length_seq).
  now rewrite seq_nth.
Qed.

(** C8 (amended): for every limit [n] and start date [d] such that each of
    the [n] days counted back from [d] is computable (the date is not before
    0001-01-01, it can be localized, and the end of its window is not after
    9999-12-31), the iterator yields exactly [n] records and ends without an
    exception; the [i]-th record (from 0) carries the date [d] minus [i]
    days, so the dates are consecutive calendar days in strictly descending
    order starting at [d]. *)
Theorem C8_one_record_per_day_descending
    (localize : Z -> exn + Z) (today : datetime) (store : Store)
    (n : nat) (d : datetime) (w : world) :
  days_ok localize d n = true ->
  exists w' recs,
    drain (last_day_stats_iterator localize today store n (Some d)) w
    = (w', recs, None)
    /\ List.length recs = n
    /\ forall i, (i < n)%nat ->
         exists r,
           nth_error recs i = Some r
           /\ date r = day_date d i
           /\ toordinal (date r) = toordinal d - Z.of_nat i
           /\ time_of_day (date r) = time_of_day d.
Proof.
  intros H. unfold drain, last_day_stats_iterator, ret.
  rewrite (drain_days localize store d (seq 0 n) w H).
  eexists. eexists. split; [reflexivity|]. split.
  - now rewrite length_map, length_seq.
  - intros i Hi. exists (expected_day localize store d i).
    split; [now apply nth_error_map_seq|].
    repeat split.
Qed.

Lemma C8_one_record_per_day_descending_witness :
  exists w' recs,
    drain (last_day_stats_iterator Example.ist_localize Example.jan1
             empty_store 3 (Some Example.jan2)) initial_world
    = (w', recs, None)
    /\ List.length recs = 3%nat.
Proof.
  destruct (C8_one_record_per_day_descending Example.ist_localize
              Example.jan1 empty_store 3 Example.jan2 initial_world eq_refl)
    as [w' [recs [Hrun [Hlen _]]]].
  exists w', recs. split; [exact Hrun | exact Hlen].
Defined.

(** What [collect] returns in print mode (the verdict, or the exception that
    ended the run) is the same on two stores whose inventory queries give the
    same rows. *)
Lemma verdict_of_equal_rows
    (localize : Z -> exn + Z) (parse : string -> exn + Z)
    (today : datetime) (now_utc : Z) (store1 store2 : Store)
    (latest_limit last_days_limit : nat) (last_days_from : option datetime)
    (w1 w2 : world) :
  latest_siri_snapshots store1 latest_limit
  = latest_siri_snapshots store2 latest_limit ->
  snd (collect localize parse today now_utc store1 latest_limit
         last_days_limit last_days_from true true w1)
  = snd (collect localize parse today now_utc store2 latest_limit
           last_days_limit last_days_from true true w2).
Proof.
  intros H. rewrite !collect_print_snd, H. reflexivity.
Qed.

(** A snapshot whose identifier is fresh but whose [etl_start_time] is not
    among the greatest is not seen: with limit 1 the verdict is false, and
    with limit 2 the same store passes. *)
Lemma fresh_identifier_outside_the_limit_is_not_seen :
  let store :=
    Example.with_snapshots
      [Example.snapshot 1 "2024/01/01/10/00"
         (Example.jan1_start + 12 * one_hour);
       Example.snapshot 2 "2024/01/01/11/50" (Example.jan1_start + one_hour)] in
  let parse :=
    Example.parse_table
      [("2024/01/01/10/00"%string, Example.jan1_start + 12 * one_hour);
       ("2024/01/01/11/50"%string,
        Example.jan1_start + 14 * one_hour - ten_minutes)] in
  let run limit :=
    snd (collect Example.ist_localize parse Example.jan1
           (Example.jan1_start + 14 * one_hour) store limit 1
           (Some Example.jan1) true true initial_world) in
  run 1%nat = inr (ReturnBool false) /\ run 2%nat = inr (ReturnBool true).
Proof. vm_compute. split; reflexivity. Qed.

(** C10: with limit 0 the snapshot iterator yields nothing and ends without
    an exception, having issued the inventory statement alone, no load of
    any snapshot's vehicle locations; the day iterator yields nothing and
    ends without an exception, having issued no statement at all. *)
Theorem C10_limit_zero_yields_nothing
    (localize : Z -> exn + Z) (today : datetime) (store : Store)
    (from_ : option datetime) (w : world) :
  drain (siri_snapshots_iterator store 0) w
  = (log w [SelectLatestSiriSnapshots 0] [], [], None)
  /\ existsb is_load
       (queries (fst (fst (drain (siri_snapshots_iterator store 0)
                             initial_world)))) = false
  /\ drain (last_day_stats_iterator localize today store 0 from_) w
     = (w, [], None).
Proof.
  repeat split.
  unfold drain, siri_snapshots_iterator, latest_siri_snapshots.
  cbn [firstn map]. now rewrite issue_ret_run.
Qed.

(* ================================================================= *)
(** ** Scenarios of the specification *)

(** Limit 2 over three snapshots of descending start time yields the first
    two, in that order. *)
Lemma scenario_inventory_limit_two :
  let store :=
    Example.with_snapshots
      [Example.snapshot 1 "2024/01/01/10/00" 100;
       Example.snapshot 3 "2024/01/03/10/00" 300;
       Example.snapshot 2 "2024/01/02/10/00" 200] in
  map summary_snapshot_id
    (snd (fst (drain (siri_snapshots_iterator store 2) initial_world)))
  = ["2024/01/03/10/00"; "2024/01/02/10/00"]%string.
Proof. reflexivity. Qed.

(** One day over an empty store: one record, every count zero. *)
Lemma scenario_empty_store_one_day :
  snd (fst (drain (last_day_stats_iterator Example.ist_localize Example.jan1
                     empty_store 1 (Some Example.jan2)) initial_world))
  = [{| date := Example.jan2;
        siri_snapshot_by_etl_started := 0;
        siri_snapshot_by_snapshot_id := 0;
        vehicle_location_by_snapshot_id := 0;
        ride_is_from_gtfs_count := 0;
        ride_not_from_gtfs_count := 0;
        route_by_rides_is_from_gtfs := 0;
        route_by_rides_not_from_gtfs := 0;
        route_stop_by_route_is_from_gtfs := 0;
        route_stop_by_route_not_from_gtfs := 0;
        stop_by_route_stop_is_from_gtfs := 0;
        stop_by_route_stop_not_from_gtfs := 0 |}].
Proof. vm_compute. reflexivity. Qed.

(** Midnight of 2024-01-01 and of 2024-01-02 in Israel, as the example
    zone gives them. *)
Lemma example_midnights :
  Example.ist_localize (toordinal Example.jan1) = inr Example.jan1_start
  /\ Example.ist_localize (toordinal Example.jan2) = inr Example.jan2_start
  /\ Example.jan2_start = Example.jan1_start + one_day.
Proof. repeat split. Qed.

(* ================================================================= *)
(** ** The snapshot inventory *)

Lemma insert_desc_perm {A : Type} (key : A -> Z) (x : A) (l : list A) :
  Permutation (Sql.insert_desc key x l) (x :: l).
Proof.
  induction l as [|y l IH]; cbn [Sql.insert_desc]; [reflexivity|].
  destruct (key y <=? key x); [reflexivity|].
  rewrite IH. apply perm_swap.
Qed.

Lemma order_by_desc_perm {A : Type} (key : A -> Z) (rows : list A) :
  Permutation (Sql.order_by_desc key rows) rows.
Proof.
  unfold Sql.order_by_desc.
  induction rows as [|x rows IH]; cbn [fold_right]; [reflexivity|].
  rewrite insert_desc_perm. now constructor.
Qed.

Lemma insert_desc_sorted {A : Type} (key : A -> Z) (x : A) (l : list A) :
  StronglySorted (fun a b => key b <= key a) l ->
  StronglySorted (fun a b => key b <= key a) (Sql.insert_desc key x l).
Proof.
  induction 1 as [|y l Hl IH Hy]; cbn [Sql.insert_desc].
  - repeat constructor.
  - destruct (key y <=? key x) eqn:C.
    + apply Z.leb_le in C. constructor; [now constructor|].
      constructor; [exact C|].
      eapply Forall_impl; [|exact Hy]. intros b Hb. cbv beta in Hb. lia.
    + apply Z.leb_gt in C. constructor; [exact IH|].
      eapply Permutation_Forall; [symmetry; apply insert_desc_perm|].
      constructor; [lia | exact Hy].
Qed.

Lemma order_by_desc_sorted {A : Type} (key : A -> Z) (rows : list A) :
  StronglySorted (fun a b => key b <= key a) (Sql.order_by_desc key rows).
Proof.
  unfold Sql.order_by_desc.
  induction rows as [|x rows IH]; cbn [fold_right]; [constructor|].
  now apply insert_desc_sorted.
Qed.

Lemma sorted_app_inv {A : Type} (R : A -> A -> Prop) (l1 l2 : list A) :
  StronglySorted R (l1 ++ l2) ->
  StronglySorted R l1
  /\ forall x y, In x l1 -> In y l2 -> R x y.
Proof.
  induction l1 as [|a l1 IH]; cbn [app]; intros H.
  - split; [constructor | intros x y []].
  - apply StronglySorted_inv in H as [Hs Ha].
    destruct (IH Hs) as [Hs1 Hcross].
    apply Forall_app in Ha as [Ha1 Ha2]. split.
    + now constructor.
    + intros x y [<-|Hx] Hy.
      * rewrite Forall_forall in Ha2. now apply Ha2.
      * now apply Hcross.
Qed.

Lemma sorted_map {A B : Type} (f : A -> B) (R : B -> B -> Prop) (l : list A) :
  StronglySorted (fun a b => R (f a) (f b)) l -> StronglySorted R (map f l).
Proof.
  induction 1 as [|a l Hl IH Ha]; cbn [map]; constructor; [exact IH|].
  apply Forall_map. exact Ha.
Qed.

(** Pulling the inventory to its end. *)
Lemma drain_inventory (store : Store) (limit : nat) (w : world) :
  drain (siri_snapshots_iterator store limit) w
  = (log w
       (SelectLatestSiriSnapshots limit
        :: map (fun x => LoadVehicleLocations (siri_snapshot_pk x))
             (latest_siri_snapshots store limit)) [],
     map (summary_of store) (latest_siri_snapshots store limit), None).
Proof.
  unfold drain, siri_snapshots_iterator.
  rewrite issue_ret_run, drain_snapshot_rows, log_log. reflexivity.
Qed.

Lemma inventory_rows (store : Store) (limit : nat) :
  inventory store limit
  = map (summary_of store) (latest_siri_snapshots store limit).
Proof. unfold inventory. now rewrite drain_inventory. Qed.

(** The iterator yields as many summaries as the limit allows and the table
    holds, whatever the state it starts in, and ends without an exception.
    It sends one statement for the rows and one load per summary yielded, and
    prints nothing. *)
Theorem inventory_size_and_statements (store : Store) (limit : nat) (w : world) :
  exists w' summaries,
    drain (siri_snapshots_iterator store limit) w = (w', summaries, None)
    /\ summaries = inventory store limit
    /\ List.length summaries
       = Nat.min limit (List.length (siri_snapshots store))
    /\ List.length (queries w')
       = (List.length (queries w) + 1 + List.length summaries)%nat
    /\ existsb is_day_count (skipn (List.length (queries w)) (queries w'))
       = false
    /\ printed w' = printed w.
Proof.
  rewrite drain_inventory, inventory_rows.
  eexists. eexists. split; [reflexivity|]. split; [reflexivity|].
  unfold latest_siri_snapshots. split; [|split; [|split]].
  - rewrite length_map, length_firstn.
    now rewrite (Permutation_length (order_by_desc_perm _ _)).
  - cbn [log queries]. rewrite length_app. cbn [List.length].
    rewrite !length_map. lia.
  - cbn [log queries]. rewrite skipn_app, skipn_all, Nat.sub_diag.
    cbn [app skipn existsb is_day_count orb].
    induction (firstn limit _) as [|x l IH]; [reflexivity | exact IH].
  - cbn [log printed]. apply app_nil_r.
Qed.

(** The summaries come latest first: their [etl_start_time] never
    increases along the sequence. *)
Theorem inventory_is_descending (store : Store) (limit : nat) :
  StronglySorted
    (fun a b => summary_etl_start_time b <= summary_etl_start_time a)
    (inventory store limit).
Proof.
  rewrite inventory_rows. apply sorted_map. cbn [summary_of summary_etl_start_time].
  unfold latest_siri_snapshots.
  pose proof (order_by_desc_sorted etl_start_time (siri_snapshots store)) as H.
  rewrite <- (firstn_skipn limit (Sql.order_by_desc _ _)) in H.
  now apply sorted_app_inv in H as [H _].
Qed.

(** The summaries are those of the snapshots of greatest [etl_start_time]:
    the table splits into the rows yielded and the rows left out, and no row
    left out started after a row yielded. *)
Theorem inventory_keeps_the_latest (store : Store) (limit : nat) :
  exists rows rest,
    inventory store limit = map (summary_of store) rows
    /\ Permutation (rows ++ rest) (siri_snapshots store)
    /\ forall x y, In x rows -> In y rest ->
                   etl_start_time y <= etl_start_time x.
Proof.
  exists (latest_siri_snapshots store limit),
    (skipn limit (Sql.order_by_desc etl_start_time (siri_snapshots store))).
  split; [apply inventory_rows|]. unfold latest_siri_snapshots. split.
  - rewrite firstn_skipn. apply order_by_desc_perm.
  - pose proof (order_by_desc_sorted etl_start_time (siri_snapshots store)) as H.
    rewrite <- (firstn_skipn limit (Sql.order_by_desc _ _)) in H.
    apply sorted_app_inv in H as [_ H]. exact H.
Qed.

(** Two descending lists of the same rows are the same list when no two
    rows share a key. *)
Lemma sorted_perm_unique {A : Type} (key : A -> Z) (l1 l2 : list A) :
  StronglySorted (fun a b => key b <= key a) l1 ->
  StronglySorted (fun a b => key b <= key a) l2 ->
  Permutation l1 l2 ->
  NoDup (map key l1) ->
  l1 = l2.
Proof.
  revert l2; induction l1 as [|a l1 IH]; intros l2 S1 S2 P N.
  - apply Permutation_nil in P. now subst.
  - destruct l2 as [|b l2];
      [symmetry in P; now apply Permutation_nil in P|].
    apply StronglySorted_inv in S1 as [S1 F1].
    apply StronglySorted_inv in S2 as [S2 F2].
    cbn [map] in N. apply NoDup_cons_iff in N as [Nin N].
    rewrite Forall_forall in F1, F2.
    assert (E : a = b).
    { assert (Hb : In b (a :: l1))
        by (apply (Permutation_in _ (Permutation_sym P)); now left).
      assert (Ha : In a (b :: l2))
        by (apply (Permutation_in _ P); now left).
      destruct Hb as [E|Hb]; [exact E|].
      destruct Ha as [E|Ha]; [now symmetry|].
      specialize (F1 _ Hb). specialize (F2 _ Ha). cbv beta in F1, F2.
      elim Nin. replace (key a) with (key b) by lia. now apply in_map. }
    subst b. f_equal. apply IH; try assumption.
    now apply Permutation_cons_inv in P.
Qed.

(** Where no two snapshots share an [etl_start_time], the order of the rows
    is the same for every statement, however the store holds them. *)
Lemma order_by_desc_of_distinct_keys (store1 store2 : Store) :
  NoDup (map etl_start_time (siri_snapshots store1)) ->
  Permutation (siri_snapshots store1) (siri_snapshots store2) ->
  Sql.order_by_desc etl_start_time (siri_snapshots store1)
  = Sql.order_by_desc etl_start_time (siri_snapshots store2).
Proof.
  intros N P. apply (sorted_perm_unique etl_start_time).
  - apply order_by_desc_sorted.
  - apply order_by_desc_sorted.
  - rewrite !order_by_desc_perm. exact P.
  - eapply Permutation_NoDup; [|exact N].
    apply Permutation_map. symmetry. apply order_by_desc_perm.
Qed.

(** Where no two snapshots share an [etl_start_time], a greater limit only
    appends older snapshots, in whatever order the store holds the rows for
    either statement: the summaries of a limit are the first ones of those
    of any greater limit. *)
Theorem inventory_grows_by_appending (store1 store2 : Store) (n m : nat) :
  (n <= m)%nat ->
  NoDup (map etl_start_time (siri_snapshots store1)) ->
  Permutation (siri_snapshots store1) (siri_snapshots store2) ->
  vehicle_locations store1 = vehicle_locations store2 ->
  inventory store1 n = firstn n (inventory store2 m).
Proof.
  intros H N P V. rewrite !inventory_rows, firstn_map.
  unfold latest_siri_snapshots.
  rewrite <- (order_by_desc_of_distinct_keys _ _ N P).
  rewrite firstn_firstn, Nat.min_l by exact H.
  apply map_ext. intros x. unfold summary_of. now rewrite V.
Qed.

Lemma inventory_grows_by_appending_witness :
  inventory Sample.store 1
  = firstn 1
      (inventory
         {| siri_snapshots := rev (siri_snapshots Sample.store);
            vehicle_locations := vehicle_locations Sample.store;
            rides := rides Sample.store;
            routes := routes Sample.store;
            route_stops := route_stops Sample.store;
            stops := stops Sample.store |} 2).
Proof.
  apply (inventory_grows_by_appending Sample.store
           {| siri_snapshots := rev (siri_snapshots Sample.store);
              vehicle_locations := vehicle_locations Sample.store;
              rides := rides Sample.store;
              routes := routes Sample.store;
              route_stops := route_stops Sample.store;
              stops := stops Sample.store |} 1 2).
  - repeat constructor.
  - repeat constructor; cbn; intuition discriminate.
  - apply Permutation_rev.
  - reflexivity.
Defined.

(* ================================================================= *)
(** ** The day iterator *)

Lemma day_item_yields (localize : Z -> exn + Z) (store : Store)
    (d : datetime) (i : nat) (s : Z) (w : world) :
  day_window localize d i = inr s ->
  day_item localize store d i w
  = (log w (map (fun k => CountOfDay k s) day_keys) [],
     inr (day_record store (day_date d i) s)).
Proof.
  intros H. rewrite day_item_spec.
  unfold expected_day, day_queries, day_start. now rewrite H.
Qed.

Lemma length_day_queries (localize : Z -> exn + Z) (d : datetime)
    (l : list nat) :
  List.length (flat_map (day_queries localize d) l) = (11 * List.length l)%nat.
Proof.
  induction l as [|i l IH]; [reflexivity|].
  cbn [flat_map]. rewrite length_app, IH. cbn [List.length].
  unfold day_queries. rewrite length_map. cbn [day_keys List.length]. lia.
Qed.

Lemma day_queries_are_counts (localize : Z -> exn + Z) (d : datetime)
    (l : list nat) :
  forallb is_day_count (flat_map (day_queries localize d) l) = true.
Proof.
  induction l as [|i l IH]; [reflexivity|].
  cbn [flat_map]. rewrite forallb_app, IH. now rewrite andb_true_r.
Qed.

Lemma days_ok_prefix (localize : Z -> exn + Z) (d : datetime) (n m : nat) :
  (n <= m)%nat -> days_ok localize d m = true -> days_ok localize d n = true.
Proof.
  unfold days_ok. intros Hnm H. rewrite forallb_forall in *.
  intros i Hi. apply H. apply in_seq. apply in_seq in Hi. lia.
Qed.

(** Pulling the days up to one that cannot be computed. *)
Lemma drain_days_until_error (localize : Z -> exn + Z) (store : Store)
    (d : datetime) (l1 : list nat) (i : nat) (l2 : list nat) (e : exn)
    (w : world) :
  forallb (day_ok localize d) l1 = true ->
  day_window localize d i = inl e ->
  drain_items (map (day_item localize store d) (l1 ++ i :: l2)) w
  = (log w (flat_map (day_queries localize d) l1) [],
     map (expected_day localize store d) l1, Some e).
Proof.
  revert w; induction l1 as [|j l1 IH]; intros w Hok He;
    cbn [app map drain_items flat_map].
  - rewrite day_item_spec, He, log_nil. reflexivity.
  - cbn [forallb] in Hok. apply andb_prop in Hok as [Hj Hl].
    rewrite day_item_spec, (day_ok_window _ _ _ Hj), (IH _ Hl He), log_log.
    reflexivity.
Qed.

(** When every requested day is computable, the run sends eleven count
    statements per day and nothing else, prints nothing, and yields one
    record per day. *)
Theorem eleven_statements_per_day
    (localize : Z -> exn + Z) (today : datetime) (store : Store)
    (n : nat) (from_ : option datetime) (w : world) :
  days_ok localize (start_date today from_) n = true ->
  exists w' recs,
    drain (last_day_stats_iterator localize today store n from_) w
    = (w', recs, None)
    /\ List.length recs = n
    /\ List.length (queries w') = (List.length (queries w) + 11 * n)%nat
    /\ forallb is_day_count (skipn (List.length (queries w)) (queries w'))
       = true
    /\ printed w' = printed w.
Proof.
  intros H. unfold drain, last_day_stats_iterator, ret.
  fold (start_date today from_).
  rewrite (drain_days localize store _ (seq 0 n) w H).
  eexists. eexists. split; [reflexivity|]. cbn [log queries printed].
  split; [|split; [|split]].
  - now rewrite length_map, length_seq.
  - now rewrite length_app, length_day_queries, length_seq.
  - rewrite skipn_app, skipn_all, Nat.sub_diag. cbn [app skipn].
    apply day_queries_are_counts.
  - apply app_nil_r.
Qed.

Lemma eleven_statements_per_day_witness :
  exists w' recs,
    drain (last_day_stats_iterator Example.ist_localize Example.jan2
             Sample.store 2 None) initial_world
    = (w', recs, None)
    /\ List.length recs = 2%nat
    /\ List.length (queries w') = 22%nat.
Proof.
  destruct (eleven_statements_per_day Example.ist_localize Example.jan2
              Sample.store 2 None initial_world eq_refl)
    as [w' [recs [Hrun [Hlen [Hq _]]]]].
  exists w', recs. split; [exact Hrun|]. split; [exact Hlen | exact Hq].
Defined.

(** A day that cannot be computed ends the run there: the run yields what a
    run limited to the days before it yields, sends the statements of those
    days only, and then raises the exception of the failing day. *)
Theorem day_failure_ends_the_run_after_the_earlier_days
    (localize : Z -> exn + Z) (today : datetime) (store : Store)
    (n k : nat) (d : datetime) (e : exn) (w : world) :
  (k < n)%nat ->
  days_ok localize d k = true ->
  day_window localize d k = inl e ->
  exists w' recs,
    drain (last_day_stats_iterator localize today store n (Some d)) w
    = (w', recs, Some e)
    /\ drain (last_day_stats_iterator localize today store k (Some d)) w
       = (w', recs, None)
    /\ List.length recs = k
    /\ List.length (queries w') = (List.length (queries w) + 11 * k)%nat.
Proof.
  intros Hk Hok He. unfold drain, last_day_stats_iterator, ret.
  replace n with (k + S (n - S k))%nat by lia.
  rewrite seq_app. cbn [seq plus].
  rewrite (drain_days_until_error localize store d (seq 0 k) k _ e w Hok He).
  rewrite (drain_days localize store d (seq 0 k) w Hok).
  eexists. eexists. split; [reflexivity|]. split; [reflexivity|].
  cbn [log queries]. split.
  - now rewrite length_map, length_seq.
  - now rewrite length_app, length_day_queries, length_seq.
Qed.

Lemma day_failure_ends_the_run_after_the_earlier_days_witness :
  exists w' recs,
    drain (last_day_stats_iterator Example.ist_localize Example.jan1
             Sample.store 4 (Some (date_of_ymd 1 1 3))) initial_world
    = (w', recs, Some OverflowError)
    /\ List.length recs = 2%nat.
Proof.
  destruct (day_failure_ends_the_run_after_the_earlier_days
              Example.ist_localize Example.jan1 Sample.store 4 2
              (date_of_ymd 1 1 3) OverflowError initial_world)
    as [w' [recs [Hrun [_ [Hlen _]]]]].
  - repeat constructor.
  - reflexivity.
  - reflexivity.
  - exists w', recs. split; [exact Hrun | exact Hlen].
Defined.

(** A greater limit only appends earlier days: the records of a limit are
    the first ones of those of any greater limit whose days are all
    computable. *)
Theorem day_records_grow_by_appending
    (localize : Z -> exn + Z) (today : datetime) (store : Store)
    (n m : nat) (from_ : option datetime) (w : world) :
  (n <= m)%nat ->
  days_ok localize (start_date today from_) m = true ->
  snd (fst (drain (last_day_stats_iterator localize today store n from_) w))
  = firstn n
      (snd (fst (drain (last_day_stats_iterator localize today store m from_)
                   w))).
Proof.
  intros Hnm Hm. unfold drain, last_day_stats_iterator, ret.
  fold (start_date today from_).
  rewrite (drain_days localize store _ (seq 0 m) w Hm).
  rewrite (drain_days localize store _ (seq 0 n) w
             (days_ok_prefix _ _ _ _ Hnm Hm)).
  cbn [fst snd]. rewrite firstn_map. f_equal.
  replace m with (n + (m - n))%nat by lia.
  rewrite seq_app, firstn_app, length_seq, Nat.sub_diag.
  cbn [firstn]. rewrite app_nil_r.
  rewrite firstn_all2; [reflexivity | now rewrite length_seq].
Qed.

Lemma day_records_grow_by_appending_witness :
  snd (fst (drain (last_day_stats_iterator Example.ist_localize Example.jan2
                     Sample.store 1 None) initial_world))
  = firstn 1
      (snd (fst (drain (last_day_stats_iterator Example.ist_localize
                          Example.jan2 Sample.store 2 None) initial_world))).
Proof.
  apply (day_records_grow_by_appending Example.ist_localize Example.jan2
           Sample.store 1 2 None initial_world).
  - repeat constructor.
  - reflexivity.
Defined.

Lemma filter_counts_member {A : Type} (p : A -> bool) (l : list A) (x : A) :
  In x l -> p x = true -> (1 <= List.length (filter p l))%nat.
Proof.
  intros Hin Hp.
  assert (H : In x (filter p l)) by (apply filter_In; now split).
  destruct (filter p l); [destruct H | cbn [List.length]; lia].
Qed.

(** Two consecutive days whose windows meet share the instant where they
    meet: a snapshot started exactly then, and a flagged ride scheduled
    exactly then, are counted on both days. *)
Theorem record_at_midnight_is_counted_on_both_days
    (localize : Z -> exn + Z) (store : Store) (d : datetime) (i : nat)
    (s : Z) (x : SiriSnapshot) (r : Ride) (w : world) :
  day_window localize d i = inr s ->
  day_window localize d (S i) = inr (s - one_day) ->
  In x (siri_snapshots store) -> etl_start_time x = s ->
  In r (rides store) -> scheduled_start_time r = s ->
  ride_is_from_gtfs r = Some true ->
  exists w1 later w2 earlier,
    day_item localize store d i w = (w1, inr later)
    /\ day_item localize store d (S i) w = (w2, inr earlier)
    /\ (1 <= siri_snapshot_by_etl_started later)%nat
    /\ (1 <= siri_snapshot_by_etl_started earlier)%nat
    /\ (1 <= ride_is_from_gtfs_count later)%nat
    /\ (1 <= ride_is_from_gtfs_count earlier)%nat.
Proof.
  intros H1 H2 Hx Htx Hr Htr Hflag.
  rewrite (day_item_yields _ _ _ _ _ _ H1), (day_item_yields _ _ _ _ _ _ H2).
  do 4 eexists. split; [reflexivity|]. split; [reflexivity|].
  unfold day_record, day_counts, Sql.count.
  cbn [siri_snapshot_by_etl_started ride_is_from_gtfs_count].
  rewrite !q_by_etl_started_filter.
  rewrite (q_ride_filter store s true), (q_ride_filter store (s - one_day) true).
  assert (Ha : in_closed_window s s = true)
    by (unfold in_closed_window, one_day;
        apply andb_true_intro; split; apply Z.leb_le; lia).
  assert (Hb : in_closed_window (s - one_day) s = true)
    by (unfold in_closed_window, one_day;
        apply andb_true_intro; split; apply Z.leb_le; lia).
  repeat split.
  - apply (filter_counts_member _ _ x Hx). now rewrite Htx.
  - apply (filter_counts_member _ _ x Hx). now rewrite Htx.
  - apply (filter_counts_member _ _ r Hr). now rewrite Htr, Hflag, Ha.
  - apply (filter_counts_member _ _ r Hr). now rewrite Htr, Hflag, Hb.
Qed.

Lemma record_at_midnight_is_counted_on_both_days_witness :
  let store :=
    {| siri_snapshots :=
         [Example.snapshot 1 "2024/01/02/00/00" Example.jan2_start];
       vehicle_locations := [];
       rides := [Example.ride 1 10 Example.jan2_start (Some true)];
       routes := []; route_stops := []; stops := [] |} in
  exists w1 later w2 earlier,
    day_item Example.ist_localize store Example.jan2 0 initial_world
    = (w1, inr later)
    /\ day_item Example.ist_localize store Example.jan2 1 initial_world
       = (w2, inr earlier)
    /\ (1 <= siri_snapshot_by_etl_started later)%nat
    /\ (1 <= siri_snapshot_by_etl_started earlier)%nat
    /\ (1 <= ride_is_from_gtfs_count later)%nat
    /\ (1 <= ride_is_from_gtfs_count earlier)%nat.
Proof.
  cbv zeta.
  apply (record_at_midnight_is_counted_on_both_days Example.ist_localize
           {| siri_snapshots :=
                [Example.snapshot 1 "2024/01/02/00/00" Example.jan2_start];
              vehicle_locations := [];
              rides := [Example.ride 1 10 Example.jan2_start (Some true)];
              routes := []; route_stops := []; stops := [] |}
           Example.jan2 0 Example.jan2_start
           (Example.snapshot 1 "2024/01/02/00/00" Example.jan2_start)
           (Example.ride 1 10 Example.jan2_start (Some true))
           initial_world).
  - reflexivity.
  - reflexivity.
  - left. reflexivity.
  - reflexivity.
  - left. reflexivity.
  - reflexivity.
  - reflexivity.
Defined.

(* ================================================================= *)
(** ** Routes, route stops and the flag split *)

Lemma holds_eq (a b : Z) : Sql.holds (Sql.eq a b) = (a =? b).
Proof. unfold Sql.eq, Sql.holds. now destruct (a =? b). Qed.

Lemma existsb_ext_eq {A : Type} (p q : A -> bool) (l : list A) :
  (forall x, p x = q x) -> existsb p l = existsb q l.
Proof.
  intros H. induction l as [|a l IH]; [reflexivity|].
  cbn [existsb]. now rewrite H, IH.
Qed.

Lemma holds_exists {A : Type} (p : A -> Sql.sqlbool) (l : list A) :
  Sql.holds (Sql.exists_ p l) = existsb (fun r => Sql.holds (p r)) l.
Proof.
  unfold Sql.exists_. now destruct (existsb (fun r => Sql.holds (p r)) l).
Qed.

Lemma flag_split_le {A : Type} (p : A -> bool) (f : A -> option bool)
    (l : list A) :
  (List.length (filter (fun x => p x && flag_is true (f x)) l)
   + List.length (filter (fun x => p x && flag_is false (f x)) l)
   <= List.length (filter p l))%nat.
Proof.
  induction l as [|a l IH]; cbn [filter]; [reflexivity|].
  destruct (p a); cbn [andb]; [|exact IH].
  destruct (f a) as [[|]|]; cbn [flag_is Bool.eqb List.length]; lia.
Qed.

Lemma flag_split_eq {A : Type} (p : A -> bool) (f : A -> option bool)
    (l : list A) :
  Forall (fun x => f x <> None) l ->
  (List.length (filter (fun x => p x && flag_is true (f x)) l)
   + List.length (filter (fun x => p x && flag_is false (f x)) l)
   = List.length (filter p l))%nat.
Proof.
  induction 1 as [|a l Ha _ IH]; cbn [filter]; [reflexivity|].
  destruct (p a); cbn [andb]; [|exact IH].
  destruct (f a) as [[|]|]; cbn [flag_is Bool.eqb List.length];
    [lia | lia | now elim Ha].
Qed.

Lemma In_join {A B : Type} (on : A -> B -> Sql.sqlbool) (l : list A)
    (r : list B) (a : A) (b : B) :
  In (a, b) (Sql.join on l r) -> In a l /\ In b r.
Proof.
  unfold Sql.join, Sql.where_. intros H.
  apply in_flat_map in H as [a' [Ha H]].
  apply in_map_iff in H as [b' [E Hb]]. inversion E; subst a' b'.
  apply filter_In in Hb as [Hb _]. now split.
Qed.

Lemma q_route_filter (store : Store) (s : Z) (b : bool) :
  q_route store s (s + one_day) (if b then Sql.eq_true else Sql.ne_true)
  = filter
      (fun ro =>
         existsb
           (fun r => (route_pk ro =? ride_route_id r)
                     && in_closed_window s (scheduled_start_time r))
           (rides store)
         && flag_is b (route_is_from_gtfs ro))
      (routes store).
Proof.
  unfold q_route, Sql.where_. apply filter_ext. intros ro.
  rewrite holds_and. f_equal.
  - rewrite holds_exists. apply existsb_ext_eq. intros r.
    now rewrite holds_and, holds_eq, holds_ride_in_window.
  - destruct b; [apply holds_eq_true | apply holds_ne_true].
Qed.

Lemma q_route_stop_filter (store : Store) (s : Z) (b : bool) :
  q_route_stop store s (s + one_day) (if b then Sql.eq_true else Sql.ne_true)
  = filter
      (fun row =>
         (let '(_, _, r) := row in
          in_closed_window s (scheduled_start_time r))
         && flag_is b (let '(_, ro, _) := row in route_is_from_gtfs ro))
      (route_stop_join_route_join_ride store).
Proof.
  unfold q_route_stop, Sql.where_. apply filter_ext. intros [[rs ro] r].
  rewrite holds_and, holds_ride_in_window. f_equal.
  destruct b; [apply holds_eq_true | apply holds_ne_true].
Qed.

Lemma q_stop_filter (store : Store) (s : Z) (b : bool) :
  q_stop store s (s + one_day) (if b then Sql.eq_true else Sql.ne_true)
  = filter
      (fun row =>
         (let '(_, _, _, r) := row in
          in_closed_window s (scheduled_start_time r))
         && flag_is b (let '(_, _, ro, _) := row in route_is_from_gtfs ro))
      (stop_join_route_stop_join_route_join_ride store).
Proof.
  unfold q_stop, Sql.where_. apply filter_ext. intros [[[st rs] ro] r].
  rewrite holds_and, holds_ride_in_window. f_equal.
  destruct b; [apply holds_eq_true | apply holds_ne_true].
Qed.

(** A route is counted at most once a day, however many rides it has in the
    window: the two route counts together never exceed the number of routes
    that have a ride in the window, nor the number of routes. *)
Theorem route_is_counted_at_most_once
    (localize : Z -> exn + Z) (store : Store) (d : datetime) (i : nat)
    (s : Z) (w : world) :
  day_window localize d i = inr s ->
  exists w' stats,
    day_item localize store d i w = (w', inr stats)
    /\ (route_by_rides_is_from_gtfs stats + route_by_rides_not_from_gtfs stats
        <= List.length (routes_with_ride_in_window store s))%nat
    /\ (List.length (routes_with_ride_in_window store s)
        <= List.length (routes store))%nat.
Proof.
  intros H. rewrite (day_item_yields _ _ _ _ _ _ H).
  eexists. eexists. split; [reflexivity|].
  unfold day_record, day_counts, Sql.count.
  cbn [route_by_rides_is_from_gtfs route_by_rides_not_from_gtfs].
  rewrite (q_route_filter store s true), (q_route_filter store s false).
  split; [apply flag_split_le | apply filter_length_le].
Qed.

Lemma route_is_counted_at_most_once_witness :
  exists w' stats,
    day_item Example.ist_localize
      (add_rides Sample.store
         [Example.ride 2 10 (Example.jan1_start + 2 * one_hour) (Some true)])
      Example.jan1 0 initial_world
    = (w', inr stats)
    /\ (route_by_rides_is_from_gtfs stats + route_by_rides_not_from_gtfs stats
        <= 1)%nat.
Proof.
  destruct (route_is_counted_at_most_once Example.ist_localize
              (add_rides Sample.store
                 [Example.ride 2 10 (Example.jan1_start + 2 * one_hour)
                    (Some true)])
              Example.jan1 0 Example.jan1_start initial_world eq_refl)
    as [w' [stats [Hrun [_ _]]]].
  exists w', stats. split; [exact Hrun|].
  injection Hrun as _ <-. repeat constructor.
Defined.

(** Rides added to a route that already has a ride in the window leave both
    route counts of the day as they were: a route is counted for having any
    ride in the window, not once per ride. *)
Theorem further_rides_of_a_counted_route_change_no_route_count
    (localize : Z -> exn + Z) (store : Store) (rs : list Ride)
    (d : datetime) (i : nat) (s : Z) (w : world) :
  day_window localize d i = inr s ->
  Forall (fun r =>
            exists r0, In r0 (rides store)
                       /\ ride_route_id r0 = ride_route_id r
                       /\ in_closed_window s (scheduled_start_time r0) = true)
    rs ->
  exists w' before after,
    day_item localize store d i w = (w', inr before)
    /\ day_item localize (add_rides store rs) d i w = (w', inr after)
    /\ route_by_rides_is_from_gtfs after = route_by_rides_is_from_gtfs before
    /\ route_by_rides_not_from_gtfs after
       = route_by_rides_not_from_gtfs before.
Proof.
  intros H Hrs. rewrite !(day_item_yields _ _ _ _ _ _ H).
  do 3 eexists. split; [reflexivity|]. split; [reflexivity|].
  unfold day_record, day_counts, Sql.count.
  cbn [route_by_rides_is_from_gtfs route_by_rides_not_from_gtfs].
  rewrite !(q_route_filter _ s true), !(q_route_filter _ s false).
  cbn [add_rides add_records rides routes].
  assert (E : forall ro,
             existsb
               (fun r => (route_pk ro =? ride_route_id r)
                         && in_closed_window s (scheduled_start_time r))
               (rides store ++ rs)
             = existsb
                 (fun r => (route_pk ro =? ride_route_id r)
                           && in_closed_window s (scheduled_start_time r))
                 (rides store)).
  { intros ro. rewrite existsb_app.
    destruct (existsb _ (rides store)) eqn:E1; [reflexivity|].
    cbn [orb]. destruct (existsb _ rs) eqn:E2; [|reflexivity].
    apply existsb_exists in E2 as [r [Hr Hp]].
    apply andb_prop in Hp as [Hk _].
    rewrite Forall_forall in Hrs. destruct (Hrs r Hr) as [r0 [Hin [Hid Hwin]]].
    rewrite <- E1. symmetry. apply existsb_exists. exists r0.
    split; [exact Hin|]. now rewrite Hid, Hk, Hwin. }
  split; f_equal; apply filter_ext; intros ro; now rewrite E.
Qed.

Lemma further_rides_of_a_counted_route_change_no_route_count_witness :
  exists w' before after,
    day_item Example.ist_localize Sample.store Example.jan1 0 initial_world
    = (w', inr before)
    /\ day_item Example.ist_localize
         (add_rides Sample.store
            [Example.ride 2 10 (Example.jan1_start + 2 * one_hour) (Some true)])
         Example.jan1 0 initial_world
       = (w', inr after)
    /\ route_by_rides_is_from_gtfs after = route_by_rides_is_from_gtfs before.
Proof.
  destruct (further_rides_of_a_counted_route_change_no_route_count
              Example.ist_localize Sample.store
              [Example.ride 2 10 (Example.jan1_start + 2 * one_hour)
                 (Some true)]
              Example.jan1 0 Example.jan1_start initial_world eq_refl)
    as [w' [before [after [H1 [H2 [H3 _]]]]]].
  - constructor; [|constructor].
    exists (Example.ride 1 10 (Example.jan1_start + one_hour) (Some true)).
    split; [left; reflexivity|]. split; reflexivity.
  - exists w', before, after. split; [exact H1|]. split; [exact H2 | exact H3].
Defined.

Lemma length_filter_join_app {A B : Type} (on : A -> B -> Sql.sqlbool)
    (p : A * B -> bool) (l : list A) (r extra : list B) :
  List.length (filter p (Sql.join on l (r ++ extra)))
  = (List.length (filter p (Sql.join on l r))
     + List.length (filter p (Sql.join on l extra)))%nat.
Proof.
  unfold Sql.join.
  induction l as [|a l IH]; cbn [flat_map]; [reflexivity|].
  rewrite !filter_app, !length_app, IH.
  unfold Sql.where_. rewrite filter_app, map_app, filter_app, length_app. lia.
Qed.

Lemma filter_join_single {A B : Type} (on : A -> B -> Sql.sqlbool)
    (p : A * B -> bool) (l : list A) (b : B) :
  List.length (filter p (Sql.join on l [b]))
  = List.length (filter (fun a => Sql.holds (on a b) && p (a, b)) l).
Proof.
  unfold Sql.join, Sql.where_.
  induction l as [|a l IH]; cbn [flat_map]; [reflexivity|].
  rewrite filter_app, length_app, IH. cbn [filter].
  destruct (Sql.holds (on a b)); cbn [map filter andb]; [|reflexivity].
  destruct (p (a, b)); reflexivity.
Qed.

(** The route-stop counts are counts of joined rows: one more ride in the
    window adds to the count of a flag one row per route-stop link of the
    ride's route carrying that flag, whether or not the route already had
    rides in the window. *)
Theorem one_more_ride_adds_a_row_per_route_stop_link
    (localize : Z -> exn + Z) (store : Store) (r : Ride)
    (d : datetime) (i : nat) (s : Z) (w : world) :
  day_window localize d i = inr s ->
  in_closed_window s (scheduled_start_time r) = true ->
  exists w' before after,
    day_item localize store d i w = (w', inr before)
    /\ day_item localize (add_rides store [r]) d i w = (w', inr after)
    /\ route_stop_by_route_is_from_gtfs after
       = (route_stop_by_route_is_from_gtfs before
          + List.length (links_of_route store (ride_route_id r) true))%nat
    /\ route_stop_by_route_not_from_gtfs after
       = (route_stop_by_route_not_from_gtfs before
          + List.length (links_of_route store (ride_route_id r) false))%nat.
Proof.
  intros H Hr. rewrite !(day_item_yields _ _ _ _ _ _ H).
  do 3 eexists. split; [reflexivity|]. split; [reflexivity|].
  unfold day_record, day_counts, Sql.count.
  cbn [route_stop_by_route_is_from_gtfs route_stop_by_route_not_from_gtfs].
  unfold q_route_stop, route_stop_join_route_join_ride, Sql.where_.
  cbn [add_rides add_records rides routes route_stops].
  rewrite !length_filter_join_app, !filter_join_single.
  unfold links_of_route.
  split; f_equal; f_equal; apply filter_ext; intros [rs ro];
    rewrite holds_eq, holds_and, holds_ride_in_window, Hr; cbn [andb];
    f_equal; [apply holds_eq_true | apply holds_ne_true].
Qed.

Lemma one_more_ride_adds_a_row_per_route_stop_link_witness :
  exists w' before after,
    day_item Example.ist_localize Sample.store Example.jan1 0 initial_world
    = (w', inr before)
    /\ day_item Example.ist_localize
         (add_rides Sample.store
            [Example.ride 2 10 (Example.jan1_start + 2 * one_hour) (Some true)])
         Example.jan1 0 initial_world
       = (w', inr after)
    /\ route_stop_by_route_is_from_gtfs before = 2%nat
    /\ route_stop_by_route_is_from_gtfs after = 4%nat.
Proof.
  destruct (one_more_ride_adds_a_row_per_route_stop_link
              Example.ist_localize Sample.store
              (Example.ride 2 10 (Example.jan1_start + 2 * one_hour)
                 (Some true))
              Example.jan1 0 Example.jan1_start initial_world
              eq_refl eq_refl)
    as [w' [before [after [H1 [H2 [H3 _]]]]]].
  exists w', before, after. split; [exact H1|]. split; [exact H2|].
  injection H1 as _ <-. split; [reflexivity|]. rewrite H3. reflexivity.
Defined.

(** Where no ride and no route carries a NULL flag, every flag split of a
    day is complete: the two ride counts add up to the rides of the window,
    the two route counts to the routes that have a ride in the window, and
    the two route-stop counts and the two stop counts to the joined rows
    whose ride is in the window. *)
Theorem flag_splits_are_complete_without_nulls
    (localize : Z -> exn + Z) (store : Store) (d : datetime) (i : nat)
    (s : Z) (w : world) :
  day_window localize d i = inr s ->
  Forall (fun r => ride_is_from_gtfs r <> None) (rides store) ->
  Forall (fun ro => route_is_from_gtfs ro <> None) (routes store) ->
  exists w' stats,
    day_item localize store d i w = (w', inr stats)
    /\ (ride_is_from_gtfs_count stats + ride_not_from_gtfs_count stats
        = List.length (rides_in_window store s))%nat
    /\ (route_by_rides_is_from_gtfs stats + route_by_rides_not_from_gtfs stats
        = List.length (routes_with_ride_in_window store s))%nat
    /\ (route_stop_by_route_is_from_gtfs stats
        + route_stop_by_route_not_from_gtfs stats
        = List.length (route_stop_rows_in_window store s))%nat
    /\ (stop_by_route_stop_is_from_gtfs stats
        + stop_by_route_stop_not_from_gtfs stats
        = List.length (stop_rows_in_window store s))%nat.
Proof.
  intros H Hrides Hroutes. rewrite (day_item_yields _ _ _ _ _ _ H).
  eexists. eexists. split; [reflexivity|].
  split; [apply ride_counts_complete_without_nulls; exact Hrides|].
  unfold day_record, day_counts, Sql.count.
  cbn [route_by_rides_is_from_gtfs route_by_rides_not_from_gtfs
       route_stop_by_route_is_from_gtfs route_stop_by_route_not_from_gtfs
       stop_by_route_stop_is_from_gtfs stop_by_route_stop_not_from_gtfs].
  rewrite (q_route_filter store s true), (q_route_filter store s false).
  rewrite (q_route_stop_filter store s true), (q_route_stop_filter store s false).
  rewrite (q_stop_filter store s true), (q_stop_filter store s false).
  rewrite Forall_forall in Hroutes.
  split; [|split].
  - apply flag_split_eq. now apply Forall_forall.
  - unfold route_stop_rows_in_window.
    rewrite (flag_split_eq
               (fun row : RouteStop * Route * Ride =>
                  let '(_, _, r) := row in
                  in_closed_window s (scheduled_start_time r))
               (fun row => let '(_, ro, _) := row in route_is_from_gtfs ro)).
    + reflexivity.
    + apply Forall_forall. intros [[rs ro] r] Hin.
      unfold route_stop_join_route_join_ride in Hin.
      apply In_join in Hin as [Hin _]. apply In_join in Hin as [_ Hin].
      now apply Hroutes.
  - unfold stop_rows_in_window.
    rewrite (flag_split_eq
               (fun row : Stop * RouteStop * Route * Ride =>
                  let '(_, _, _, r) := row in
                  in_closed_window s (scheduled_start_time r))
               (fun row => let '(_, _, ro, _) := row in route_is_from_gtfs ro)).
    + reflexivity.
    + apply Forall_forall. intros [[[st rs] ro] r] Hin.
      unfold stop_join_route_stop_join_route_join_ride in Hin.
      apply In_join in Hin as [Hin _]. apply In_join in Hin as [_ Hin].
      now apply Hroutes.
Qed.

Lemma flag_splits_are_complete_without_nulls_witness :
  exists w' stats,
    day_item Example.ist_localize Sample.store Example.jan1 0 initial_world
    = (w', inr stats)
    /\ (ride_is_from_gtfs_count stats + ride_not_from_gtfs_count stats
        = 1)%nat
    /\ (route_stop_by_route_is_from_gtfs stats
        + route_stop_by_route_not_from_gtfs stats = 2)%nat.
Proof.
  destruct (flag_splits_are_complete_without_nulls Example.ist_localize
              Sample.store Example.jan1 0 Example.jan1_start initial_world
              eq_refl)
    as [w' [stats [Hrun [Hride [_ [Hrs _]]]]]].
  - repeat constructor; discriminate.
  - repeat constructor; discriminate.
  - exists w', stats. split; [exact Hrun|]. split; [exact Hride | exact Hrs].
Defined.

(* ================================================================= *)
(** ** Vehicle locations: the day count against the inventory *)

Lemma filter_filter_and {A : Type} (p q : A -> bool) (l : list A) :
  filter p (filter q l) = filter (fun x => q x && p x) l.
Proof.
  induction l as [|a l IH]; [reflexivity|]. cbn [filter].
  destruct (q a); cbn [andb filter]; now rewrite IH.
Qed.

Lemma list_sum_cons_eq (a : nat) (l : list nat) :
  list_sum (a :: l) = (a + list_sum l)%nat.
Proof. reflexivity. Qed.

Lemma sum_of_counts_cons {A B : Type} (g : A -> B -> bool) (v : B)
    (V : list B) (L : list A) :
  list_sum (map (fun x => List.length (filter (g x) (v :: V))) L)
  = (List.length (filter (fun x => g x v) L)
     + list_sum (map (fun x => List.length (filter (g x) V)) L))%nat.
Proof.
  induction L as [|x L IH]; [reflexivity|].
  cbn [map]. rewrite !list_sum_cons_eq, IH. cbn [filter].
  destruct (g x v); cbn [List.length]; lia.
Qed.

Lemma unique_key_matches_once (S : list SiriSnapshot)
    (m : SiriSnapshot -> bool) (k : Z) :
  NoDup (map siri_snapshot_pk S) ->
  List.length (filter (fun x => m x && (k =? siri_snapshot_pk x)) S)
  = if existsb (fun x => (siri_snapshot_pk x =? k) && m x) S
    then 1%nat else 0%nat.
Proof.
  induction S as [|a S IH]; intros Hnd; [reflexivity|].
  cbn [map] in Hnd. apply NoDup_cons_iff in Hnd as [Hnotin Hnd].
  cbn [filter existsb]. rewrite (Z.eqb_sym k), (andb_comm (m a)).
  destruct ((siri_snapshot_pk a =? k) && m a) eqn:E; cbn [orb].
  - apply andb_prop in E as [Ek _]. apply Z.eqb_eq in Ek. subst k.
    cbn [List.length]. f_equal.
    rewrite filter_none; [reflexivity|].
    apply Forall_forall. intros x Hx.
    destruct (siri_snapshot_pk a =? siri_snapshot_pk x) eqn:Ex;
      [|apply andb_false_r].
    apply Z.eqb_eq in Ex. elim Hnotin. rewrite Ex. now apply in_map.
  - now apply IH.
Qed.

(** Where snapshot keys are unique, the vehicle-location count of a day is
    the sum of the [vehicle_locations] figures the inventory reports for the
    snapshots the day counts by identifier. *)
Theorem day_vehicle_locations_add_up_over_its_snapshots
    (localize : Z -> exn + Z) (store : Store) (d : datetime) (i : nat)
    (s : Z) (w : world) :
  day_window localize d i = inr s ->
  NoDup (map siri_snapshot_pk (siri_snapshots store)) ->
  exists w' stats,
    day_item localize store d i w = (w', inr stats)
    /\ vehicle_location_by_snapshot_id stats
       = list_sum
           (map (fun x => summary_vehicle_locations (summary_of store x))
              (q_siri_snapshot_by_snapshot_id store
                 (strftime_ymd (year (day_date d i)) (month (day_date d i))
                    (day (day_date d i)))))
    /\ siri_snapshot_by_snapshot_id stats
       = List.length
           (q_siri_snapshot_by_snapshot_id store
              (strftime_ymd (year (day_date d i)) (month (day_date d i))
                 (day (day_date d i)))).
Proof.
  intros H Hnd. rewrite (day_item_yields _ _ _ _ _ _ H).
  eexists. eexists. split; [reflexivity|]. split; [|reflexivity].
  unfold day_record, day_counts, Sql.count.
  cbn [vehicle_location_by_snapshot_id].
  set (prefix := strftime_ymd _ _ _).
  unfold q_vehicle_location_by_snapshot_id, q_siri_snapshot_by_snapshot_id,
    Sql.where_.
  cbn [summary_of summary_vehicle_locations].
  set (m := fun x => Sql.holds (snapshot_id_like prefix x)).
  induction (vehicle_locations store) as [|v V IH]; cbn [filter].
  - induction (filter m (siri_snapshots store)) as [|x L IHL];
      [reflexivity | exact IHL].
  - rewrite (sum_of_counts_cons
               (fun x v0 => siri_snapshot_id v0 =? siri_snapshot_pk x) v V).
    rewrite <- IH, filter_filter_and.
    rewrite (unique_key_matches_once _ m (siri_snapshot_id v) Hnd).
    rewrite holds_exists.
    rewrite (existsb_ext_eq
               (fun r => Sql.holds
                           (Sql.and_
                              (Sql.eq (siri_snapshot_pk r) (siri_snapshot_id v))
                              (snapshot_id_like prefix r)))
               (fun x => (siri_snapshot_pk x =? siri_snapshot_id v) && m x));
      [|intros x; now rewrite holds_and, holds_eq].
    destruct (existsb _ (siri_snapshots store)); reflexivity.
Qed.

Lemma day_vehicle_locations_add_up_over_its_snapshots_witness :
  exists w' stats,
    day_item Example.ist_localize Sample.store Example.jan1 0 initial_world
    = (w', inr stats)
    /\ vehicle_location_by_snapshot_id stats = 3%nat
    /\ map summary_vehicle_locations (inventory Sample.store 2)
       = [1%nat; 2%nat].
Proof.
  destruct (day_vehicle_locations_add_up_over_its_snapshots
              Example.ist_localize Sample.store Example.jan1 0
              Example.jan1_start initial_world eq_refl)
    as [w' [stats [Hrun [Hsum _]]]].
  - repeat constructor; cbn; intuition discriminate.
  - exists w', stats. split; [exact Hrun|]. split; [exact Hsum | reflexivity].
Defined.

(* ================================================================= *)
(** ** The verdict of [collect] *)

Lemma latest_of_parsed (parse : string -> exn + Z) (ids : list string)
    (ts : list Z) :
  map parse ids = map inr ts -> latest_of parse ids None = inr (newest ts).
Proof.
  destruct ts as [|t ts]; intros H.
  - destruct ids; [reflexivity | discriminate].
  - now apply latest_of_none.
Qed.

Lemma latest_of_app (parse : string -> exn + Z) (a b : list string)
    (acc : option Z) :
  latest_of parse (a ++ b) acc
  = match latest_of parse a acc with
    | inl e => inl e
    | inr l => latest_of parse b l
    end.
Proof.
  revert acc; induction a as [|id a IH]; intros acc; cbn [app latest_of];
    [reflexivity|].
  destruct (parse id); [reflexivity | apply IH].
Qed.

Lemma latest_of_parsed_from (parse : string -> exn + Z) (ids : list string)
    (ts : list Z) (acc : option Z) :
  map parse ids = map inr ts -> exists l, latest_of parse ids acc = inr l.
Proof.
  revert ts acc; induction ids as [|id ids IH]; intros [|t ts] acc H;
    try discriminate; cbn [latest_of]; [now exists acc|].
  cbn [map] in H. injection H as Hid Hrest. rewrite Hid. now apply (IH ts).
Qed.

Lemma maximum_from_ge (t : Z) (ts : list Z) : t <= maximum t ts.
Proof.
  unfold maximum. revert t; induction ts as [|a ts IH]; intros t;
    cbn [fold_left]; [lia|].
  specialize (IH (Z.max t a)). lia.
Qed.

Lemma maximum_ge (t : Z) (ts : list Z) :
  Forall (fun x => x <= maximum t ts) (t :: ts).
Proof.
  unfold maximum. revert t; induction ts as [|a ts IH]; intros t;
    cbn [fold_left].
  - constructor; [lia | constructor].
  - specialize (IH (Z.max t a)). apply Forall_cons_iff in IH as [Hm Hts].
    constructor; [lia|]. constructor; [lia | exact Hts].
Qed.

Lemma maximum_in (t : Z) (ts : list Z) : In (maximum t ts) (t :: ts).
Proof.
  unfold maximum. revert t; induction ts as [|a ts IH]; intros t;
    cbn [fold_left]; [now left|].
  destruct (IH (Z.max t a)) as [E|Hin].
  - rewrite <- E. destruct (Z.max_spec t a) as [[_ ->]|[_ ->]];
      [right; now left | now left].
  - right. now right.
Qed.

Lemma newest_perm (ts ts' : list Z) :
  Permutation ts ts' -> newest ts = newest ts'.
Proof.
  intros H. destruct ts as [|t ts], ts' as [|t' ts'].
  - reflexivity.
  - now apply Permutation_nil in H.
  - symmetry in H. now apply Permutation_nil in H.
  - cbn [newest]. f_equal.
    pose proof (maximum_in t ts) as I1. pose proof (maximum_in t' ts') as I2.
    pose proof (maximum_ge t ts) as G1. pose proof (maximum_ge t' ts') as G2.
    rewrite Forall_forall in G1, G2.
    apply (Permutation_in _ H) in I1.
    apply (Permutation_in _ (Permutation_sym H)) in I2.
    specialize (G1 _ I2). specialize (G2 _ I1). lia.
Qed.

(** Without validation, print mode returns True whenever the run does not
    raise, however old the snapshots are and even with none at all. *)
Theorem print_mode_without_validation_returns_true
    (localize : Z -> exn + Z) (parse : string -> exn + Z)
    (today : datetime) (now_utc : Z) (store : Store)
    (latest_limit last_days_limit : nat) (last_days_from : option datetime)
    (ts : list Z) (w : world) :
  days_ok localize (start_date today last_days_from) last_days_limit = true ->
  map parse (map snapshot_id (latest_siri_snapshots store latest_limit))
  = map inr ts ->
  snd (collect localize parse today now_utc store latest_limit
         last_days_limit last_days_from true false w)
  = inr (ReturnBool true).
Proof.
  intros Hdays Hparse. rewrite collect_print_snd.
  rewrite (first_error_ok _ _ _ Hdays), (latest_of_parsed _ _ _ Hparse).
  reflexivity.
Qed.

Lemma print_mode_without_validation_returns_true_witness :
  snd (collect Example.ist_localize Sample.parse Example.jan1
         (Sample.now + 48 * one_hour) Sample.store 10 1 None true false
         initial_world)
  = inr (ReturnBool true)
  /\ snd (collect Example.ist_localize Sample.parse Example.jan1
            (Sample.now + 48 * one_hour) Sample.store 10 1 None true true
            initial_world)
     = inr (ReturnBool false).
Proof.
  split; [|reflexivity].
  apply (print_mode_without_validation_returns_true Example.ist_localize
           Sample.parse Example.jan1 (Sample.now + 48 * one_hour)
           Sample.store 10 1 None
           [Example.jan1_start + 13 * one_hour;
            Example.jan1_start + 12 * one_hour] initial_world);
    reflexivity.
Defined.

(** An identifier the codec rejects ends print mode with the codec's
    exception, with or without validation, when the days before it were
    printed and the identifiers yielded before it parse. *)
Theorem malformed_identifier_aborts_print_mode
    (localize : Z -> exn + Z) (parse : string -> exn + Z)
    (today : datetime) (now_utc : Z) (store : Store)
    (latest_limit last_days_limit : nat) (last_days_from : option datetime)
    (validate : bool) (before : list SiriSnapshot) (bad : SiriSnapshot)
    (after : list SiriSnapshot) (ts : list Z) (e : exn) (w : world) :
  days_ok localize (start_date today last_days_from) last_days_limit = true ->
  latest_siri_snapshots store latest_limit = before ++ bad :: after ->
  map parse (map snapshot_id before) = map inr ts ->
  parse (snapshot_id bad) = inl e ->
  snd (collect localize parse today now_utc store latest_limit
         last_days_limit last_days_from true validate w)
  = inl e.
Proof.
  intros Hdays Hrows Hbefore Hbad. rewrite collect_print_snd.
  rewrite (first_error_ok _ _ _ Hdays), Hrows, map_app, latest_of_app.
  destruct (latest_of_parsed_from parse _ ts None Hbefore) as [l ->].
  cbn [map latest_of]. now rewrite Hbad.
Qed.

Lemma malformed_identifier_aborts_print_mode_witness :
  snd (collect Example.ist_localize
         (Example.parse_table
            [("2024/01/01/11/00"%string, Example.jan1_start + 13 * one_hour)])
         Example.jan1 Sample.now Sample.store 10 1 None true false
         initial_world)
  = inl (Raised "MalformedIdentifier").
Proof.
  apply (malformed_identifier_aborts_print_mode Example.ist_localize
           (Example.parse_table
              [("2024/01/01/11/00"%string,
                Example.jan1_start + 13 * one_hour)])
           Example.jan1 Sample.now Sample.store 10 1 None false
           [Example.snapshot 2 "2024/01/01/11/00"
              (Example.jan1_start + 13 * one_hour)]
           (Example.snapshot 1 "2024/01/01/10/00"
              (Example.jan1_start + 12 * one_hour))
           [] [Example.jan1_start + 13 * one_hour]
           (Raised "MalformedIdentifier") initial_world);
    reflexivity.
Defined.

(** The verdict does not depend on the order in which the store returns the
    rows: two stores whose inventory rows are the same up to order give the
    same result, when the identifiers parse. *)
Theorem verdict_ignores_the_order_of_the_rows
    (localize : Z -> exn + Z) (parse : string -> exn + Z)
    (today : datetime) (now_utc : Z) (store1 store2 : Store)
    (latest_limit last_days_limit : nat) (last_days_from : option datetime)
    (validate : bool) (ts : list Z) (w1 w2 : world) :
  Permutation (latest_siri_snapshots store1 latest_limit)
    (latest_siri_snapshots store2 latest_limit) ->
  map parse (map snapshot_id (latest_siri_snapshots store1 latest_limit))
  = map inr ts ->
  snd (collect localize parse today now_utc store1 latest_limit
         last_days_limit last_days_from true validate w1)
  = snd (collect localize parse today now_utc store2 latest_limit
           last_days_limit last_days_from true validate w2).
Proof.
  intros Hperm Hparse. rewrite !collect_print_snd.
  destruct (first_error localize (start_date today last_days_from)
              (seq 0 last_days_limit)); [reflexivity|].
  rewrite (latest_of_parsed _ _ _ Hparse).
  assert (P : Permutation
                (map parse (map snapshot_id
                              (latest_siri_snapshots store2 latest_limit)))
                (map inr ts)).
  { rewrite <- Hparse. symmetry. now do 2 apply Permutation_map. }
  apply Permutation_map_inv in P as [ts2 [E P]].
  rewrite (latest_of_parsed _ _ _ E).
  now rewrite (newest_perm _ _ P).
Qed.

Lemma verdict_ignores_the_order_of_the_rows_witness :
  let a := Example.snapshot 1 "2024/01/01/10/00" Example.jan1_start in
  let b := Example.snapshot 2 "2024/01/01/11/00" Example.jan1_start in
  let run store :=
    snd (collect Example.ist_localize Sample.parse Example.jan1 Sample.now
           store 2 1 None true true initial_world) in
  run (Example.with_snapshots [a; b]) = run (Example.with_snapshots [b; a]).
Proof.
  cbv zeta.
  apply (verdict_ignores_the_order_of_the_rows Example.ist_localize
           Sample.parse Example.jan1 Sample.now
           (Example.with_snapshots
              [Example.snapshot 1 "2024/01/01/10/00" Example.jan1_start;
               Example.snapshot 2 "2024/01/01/11/00" Example.jan1_start])
           (Example.with_snapshots
              [Example.snapshot 2 "2024/01/01/11/00" Example.jan1_start;
               Example.snapshot 1 "2024/01/01/10/00" Example.jan1_start])
           2 1 None true
           [Example.jan1_start + 12 * one_hour;
            Example.jan1_start + 13 * one_hour]
           initial_world initial_world).
  - apply perm_swap.
  - reflexivity.
Defined.

Lemma maximum_app (t : Z) (a b : list Z) :
  maximum t (a ++ b) = maximum (maximum t a) b.
Proof. unfold maximum. apply fold_left_app. Qed.

Lemma newest_prefix_le (n : nat) (ts : list Z) (l : Z) :
  newest (firstn n ts) = Some l -> exists l', newest ts = Some l' /\ l <= l'.
Proof.
  destruct n as [|n]; [discriminate|].
  destruct ts as [|t ts]; [discriminate|].
  cbn [firstn newest]. intros H. injection H as <-.
  exists (maximum t ts). split; [reflexivity|].
  rewrite <- (firstn_skipn n ts) at 2. rewrite maximum_app.
  apply maximum_from_ge.
Qed.

(** Where no two snapshots share an [etl_start_time], raising the inventory
    limit never turns a passing validation into a failing one, in whatever
    order the store holds the rows for either call, as long as the
    identifiers of the larger inventory parse. *)
Theorem raising_the_limit_keeps_a_passing_validation
    (localize : Z -> exn + Z) (parse : string -> exn + Z)
    (today : datetime) (now_utc : Z) (store1 store2 : Store)
    (n m last_days_limit : nat) (last_days_from : option datetime)
    (ts : list Z) (w1 w2 : world) :
  (n <= m)%nat ->
  NoDup (map etl_start_time (siri_snapshots store1)) ->
  Permutation (siri_snapshots store1) (siri_snapshots store2) ->
  map parse (map snapshot_id (latest_siri_snapshots store2 m)) = map inr ts ->
  snd (collect localize parse today now_utc store1 n last_days_limit
         last_days_from true true w1)
  = inr (ReturnBool true) ->
  snd (collect localize parse today now_utc store2 m last_days_limit
         last_days_from true true w2)
  = inr (ReturnBool true).
Proof.
  intros Hnm N P Hparse. rewrite !collect_print_snd.
  destruct (first_error localize (start_date today last_days_from)
              (seq 0 last_days_limit)); [discriminate|].
  assert (Hn : map parse (map snapshot_id (latest_siri_snapshots store1 n))
               = map inr (firstn n ts)).
  { rewrite <- firstn_map, <- Hparse, !firstn_map. do 2 f_equal.
    unfold latest_siri_snapshots.
    rewrite <- (order_by_desc_of_distinct_keys _ _ N P).
    rewrite firstn_firstn. now rewrite Nat.min_l. }
  rewrite (latest_of_parsed _ _ _ Hn), (latest_of_parsed _ _ _ Hparse).
  unfold verdict.
  destruct (newest (firstn n ts)) as [l|] eqn:E; [|discriminate].
  destruct (newest_prefix_le _ _ _ E) as [l' [-> Hle]].
  destruct (l <? now_utc - one_hour) eqn:C; [discriminate|]. intros _.
  apply Z.ltb_ge in C.
  replace (l' <? now_utc - one_hour) with false; [reflexivity|].
  symmetry. apply Z.ltb_ge. lia.
Qed.

Lemma raising_the_limit_keeps_a_passing_validation_witness :
  snd (collect Example.ist_localize Sample.parse Example.jan1 Sample.now
         {| siri_snapshots := rev (siri_snapshots Sample.store);
            vehicle_locations := vehicle_locations Sample.store;
            rides := rides Sample.store;
            routes := routes Sample.store;
            route_stops := route_stops Sample.store;
            stops := stops Sample.store |}
         2 1 None true true initial_world)
  = inr (ReturnBool true).
Proof.
  apply (raising_the_limit_keeps_a_passing_validation Example.ist_localize
           Sample.parse Example.jan1 Sample.now Sample.store
           {| siri_snapshots := rev (siri_snapshots Sample.store);
              vehicle_locations := vehicle_locations Sample.store;
              rides := rides Sample.store;
              routes := routes Sample.store;
              route_stops := route_stops Sample.store;
              stops := stops Sample.store |}
           1 2 1 None
           [Example.jan1_start + 13 * one_hour;
            Example.jan1_start + 12 * one_hour] initial_world initial_world).
  - repeat constructor.
  - repeat constructor; cbn; intuition discriminate.
  - apply Permutation_rev.
  - reflexivity.
  - reflexivity.
Defined.

(* ================================================================= *)
(** ** What [collect] prints and asks in print mode *)

Ltac norm_lists :=
  repeat first
    [ rewrite <- app_assoc | rewrite app_nil_r | progress (cbn [app]) ].

Lemma bind_case {A B : Type} (c : M A) (k : A -> M B) (w : world) :
  bind c k w
  = match c w with
    | (w', inl e) => (w', inl e)
    | (w', inr a) => k a w'
    end.
Proof. reflexivity. Qed.

(** The loop over the days only sends day counts and only prints days. *)
Lemma print_days_world (localize : Z -> exn + Z) (store : Store)
    (d : datetime) (l : list nat) (w : world) :
  exists qs ls,
    fst (for_items (map (day_item localize store d) l)
           (fun last_day_stats (_ : unit) => print (yaml_day last_day_stats))
           tt w)
    = log w qs ls
    /\ forallb is_day_count qs = true
    /\ forallb is_yaml_day ls = true.
Proof.
  revert w; induction l as [|i l IH]; intros w; cbn [map for_items].
  - exists [], []. now rewrite log_nil.
  - rewrite bind_case, day_item_spec.
    destruct (day_window localize d i) as [e|s].
    + exists [], []. now rewrite log_nil.
    + rewrite bind_case, print_run.
      destruct (IH (log (log w (day_queries localize d i) []) []
                      [yaml_day (expected_day localize store d i)]))
        as [qs [ls [E [Hq Hl]]]].
      rewrite E, !log_log.
      eexists. eexists. split; [reflexivity|]. split.
      * cbn [app]. rewrite forallb_app, Hq.
        pose proof (day_queries_are_counts localize d [i]) as Hi.
        cbn [flat_map] in Hi. rewrite app_nil_r in Hi. now rewrite Hi.
      * cbn [app forallb is_yaml_day andb]. exact Hl.
Qed.

(** The loop over the snapshots, when every identifier parses. *)
Lemma track_latest_run (parse : string -> exn + Z) (store : Store)
    (rows : list SiriSnapshot) (ts : list Z) (acc : option Z) (w : world) :
  map parse (map snapshot_id rows) = map inr ts ->
  exists latest,
    latest_of parse (map snapshot_id rows) acc = inr latest
    /\ for_items
         (map (fun x =>
                 issue (LoadVehicleLocations (siri_snapshot_pk x)) ;;;
                 ret (summary_of store x)) rows)
         (fun siri_snapshot latest_snapshot_datetime =>
            snapshot_datetime <-
              lift (parse (summary_snapshot_id siri_snapshot)) ;;
            let latest_snapshot_datetime :=
              match latest_snapshot_datetime with
              | None => Some snapshot_datetime
              | Some latest =>
                  if latest <? snapshot_datetime then Some snapshot_datetime
                  else Some latest
              end in
            print (yaml_snapshot siri_snapshot) ;;;
            ret latest_snapshot_datetime)
         acc w
       = (log w (map (fun x => LoadVehicleLocations (siri_snapshot_pk x)) rows)
            (map (fun x => yaml_snapshot (summary_of store x)) rows),
          inr latest).
Proof.
  revert ts acc w; induction rows as [|x rows IH]; intros [|t ts] acc w H;
    try discriminate; cbn [map for_items latest_of].
  - exists acc. split; [reflexivity|]. unfold ret. now rewrite log_nil.
  - cbn [map] in H. injection H as Hx Hrest. rewrite Hx.
    destruct (IH ts
                (match acc with
                 | None => Some t
                 | Some latest => if latest <? t then Some t else Some latest
                 end)
                (log (log w [LoadVehicleLocations (siri_snapshot_pk x)] [])
                   [] [yaml_snapshot (summary_of store x)]) Hrest)
      as [latest [E R]].
    exists latest. split; [exact E|].
    erewrite bind_run by apply issue_ret_run.
    erewrite bind_run;
      [|cbn [summary_of summary_snapshot_id]; rewrite Hx; cbn [lift];
        erewrite bind_run by reflexivity;
        erewrite bind_run by apply print_run; reflexivity].
    etransitivity; [exact R|]. rewrite !log_log. reflexivity.
Qed.

(** Print mode when nothing raises: the count of snapshots is asked first,
    then the eleven counts of each day, then the inventory rows and one load
    per row; the lines are the total, the header and the days, the header
    and the snapshots, and last the verdict line if validation is
    requested.  The value returned is the verdict. *)
Theorem print_mode_writes_everything_before_the_verdict
    (localize : Z -> exn + Z) (parse : string -> exn + Z)
    (today : datetime) (now_utc : Z) (store : Store)
    (latest_limit last_days_limit : nat) (last_days_from : option datetime)
    (validate : bool) (ts : list Z) (w : world) :
  days_ok localize (start_date today last_days_from) last_days_limit = true ->
  map parse (map snapshot_id (latest_siri_snapshots store latest_limit))
  = map inr ts ->
  collect localize parse today now_utc store latest_limit last_days_limit
    last_days_from true validate w
  = (log w
       (CountSiriSnapshots
        :: flat_map (day_queries localize (start_date today last_days_from))
             (seq 0 last_days_limit)
        ++ SelectLatestSiriSnapshots latest_limit
        :: map (fun x => LoadVehicleLocations (siri_snapshot_pk x))
             (latest_siri_snapshots store latest_limit))
       (total_siri_snapshots (List.length (siri_snapshots store))
        :: last_days_header last_days_limit
        :: map (fun i =>
                  yaml_day
                    (expected_day localize store
                       (start_date today last_days_from) i))
             (seq 0 last_days_limit)
        ++ latest_siri_snapshots_header latest_limit
        :: map yaml_snapshot (inventory store latest_limit)
        ++ verdict_lines now_utc validate (newest ts)),
     inr (ReturnBool (verdict now_utc validate (newest ts)))).
Proof.
  intros Hdays Hparse.
  destruct (track_latest_run parse store _ ts None
              (log (log (log (log (log (log w [CountSiriSnapshots] []) []
                 [total_siri_snapshots (Sql.count (siri_snapshots store))])
                 [] [last_days_header last_days_limit])
                 (flat_map
                    (day_queries localize (start_date today last_days_from))
                    (seq 0 last_days_limit))
                 (map (fun i => yaml_day
                         (expected_day localize store
                            (start_date today last_days_from) i))
                    (seq 0 last_days_limit)))
                 [] [latest_siri_snapshots_header latest_limit])
                 [SelectLatestSiriSnapshots latest_limit] [])
              Hparse) as [latest [E R]].
  rewrite (latest_of_parsed _ _ _ Hparse) in E. injection E as <-.
  unfold collect, for_, last_day_stats_iterator, siri_snapshots_iterator.
  cbn [num_siri_snapshots res_last_day_stats_iterator
       res_siri_snapshots_iterator].
  fold (start_date today last_days_from).
  erewrite bind_run by apply issue_ret_run.
  erewrite bind_run by apply print_run.
  erewrite bind_run by apply print_run.
  erewrite bind_run;
    [|erewrite bind_run by reflexivity; apply print_days; exact Hdays].
  erewrite bind_run by apply print_run.
  erewrite bind_run;
    [|erewrite bind_run by apply issue_ret_run; exact R].
  rewrite inventory_rows, map_map.
  unfold verdict, verdict_lines, Sql.count.
  destruct validate.
  - destruct (newest ts) as [l|].
    + destruct (l <? now_utc - one_hour);
        erewrite bind_run by apply print_run;
        unfold ret; rewrite !log_log; unfold log; cbn [queries printed];
        (apply f_equal2; [apply f_equal2; norm_lists; reflexivity
                         | reflexivity]).
    + erewrite bind_run by apply print_run.
      unfold ret. rewrite !log_log. unfold log. cbn [queries printed].
      apply f_equal2; [apply f_equal2; norm_lists; reflexivity | reflexivity].
  - unfold ret. rewrite !log_log. unfold log. cbn [queries printed].
    apply f_equal2; [apply f_equal2; norm_lists; reflexivity | reflexivity].
Qed.

Lemma print_mode_writes_everything_before_the_verdict_witness :
  exists w',
    collect Example.ist_localize Sample.parse Example.jan1 Sample.now
      Sample.store 2 1 None true true initial_world
    = (w', inr (ReturnBool true))
    /\ List.length (queries w') = 15%nat
    /\ last (printed w') validation_error_no_latest
       = validation_success (Example.jan1_start + 13 * one_hour).
Proof.
  eexists. split.
  - apply (print_mode_writes_everything_before_the_verdict
             Example.ist_localize Sample.parse Example.jan1 Sample.now
             Sample.store 2 1 None true
             [Example.jan1_start + 13 * one_hour;
              Example.jan1_start + 12 * one_hour] initial_world);
      reflexivity.
  - split; reflexivity.
Defined.

Lemma first_error_at (localize : Z -> exn + Z) (d : datetime)
    (l1 : list nat) (i : nat) (l2 : list nat) (e : exn) :
  forallb (day_ok localize d) l1 = true ->
  day_window localize d i = inl e ->
  first_error localize d (l1 ++ i :: l2) = Some e.
Proof.
  intros Hok He. induction l1 as [|j l1 IH]; cbn [app first_error].
  - now rewrite He.
  - cbn [forallb] in Hok. apply andb_prop in Hok as [Hj Hl].
    rewrite (day_ok_window _ _ _ Hj). now apply IH.
Qed.

Lemma day_counts_are_not_inventory_queries (qs : list query) :
  forallb is_day_count qs = true -> existsb is_inventory_query qs = false.
Proof.
  induction qs as [|q qs IH]; [reflexivity|]. cbn [forallb existsb].
  intros H. apply andb_prop in H as [Hq Hqs].
  rewrite (IH Hqs). now destruct q.
Qed.

Lemma yaml_days_are_not_snapshot_lines (ls : list line) :
  forallb is_yaml_day ls = true ->
  existsb (fun l => is_validation_line l || is_yaml_snapshot l) ls = false.
Proof.
  induction ls as [|l ls IH]; [reflexivity|]. cbn [forallb existsb].
  intros H. apply andb_prop in H as [Hl Hls].
  rewrite (IH Hls). now destruct l.
Qed.

(** When a requested day cannot be computed, print mode ends with that
    day's exception before it reads the inventory: no inventory statement is
    sent, no snapshot is printed and no verdict line is printed, with or
    without validation. *)
Theorem day_failure_ends_print_mode_before_the_inventory
    (localize : Z -> exn + Z) (parse : string -> exn + Z)
    (today : datetime) (now_utc : Z) (store : Store)
    (latest_limit last_days_limit k : nat) (last_days_from : option datetime)
    (validate : bool) (e : exn) (w : world) :
  (k < last_days_limit)%nat ->
  days_ok localize (start_date today last_days_from) k = true ->
  day_window localize (start_date today last_days_from) k = inl e ->
  exists w',
    collect localize parse today now_utc store latest_limit last_days_limit
      last_days_from true validate w
    = (w', inl e)
    /\ existsb is_inventory_query
         (skipn (List.length (queries w)) (queries w')) = false
    /\ existsb (fun l => is_validation_line l || is_yaml_snapshot l)
         (skipn (List.length (printed w)) (printed w')) = false.
Proof.
  intros Hk Hok He.
  assert (Herr : first_error localize (start_date today last_days_from)
                   (seq 0 last_days_limit) = Some e).
  { replace last_days_limit with (k + S (last_days_limit - S k))%nat by lia.
    rewrite seq_app. cbn [seq plus]. now apply first_error_at. }
  unfold collect, for_, last_day_stats_iterator.
  cbn [num_siri_snapshots res_last_day_stats_iterator].
  fold (start_date today last_days_from).
  erewrite bind_run by apply issue_ret_run.
  erewrite bind_run by apply print_run.
  erewrite bind_run by apply print_run.
  rewrite bind_case.
  match goal with
  | |- context [bind (ret ?l) ?f ?w0] =>
      change (bind (ret l) f w0) with (f l w0)
  end.
  cbv beta.
  match goal with
  | |- context [for_items ?items ?body tt ?w0] =>
      pose proof (print_days_world localize store
                    (start_date today last_days_from)
                    (seq 0 last_days_limit) w0) as [qs [ls [Ew [Hq Hl]]]];
      pose proof (print_days_snd localize store
                    (start_date today last_days_from)
                    (seq 0 last_days_limit) w0) as Es;
      destruct (for_items items body tt w0) as [w4 r]
  end.
  rewrite Herr in Es. cbn [fst snd] in Ew, Es. subst w4 r.
  eexists. split; [reflexivity|].
  rewrite !log_log. cbn [log queries printed]. norm_lists.
  split.
  - rewrite skipn_app, skipn_all, Nat.sub_diag.
    cbn [skipn app existsb is_inventory_query orb].
    now apply day_counts_are_not_inventory_queries.
  - rewrite skipn_app, skipn_all, Nat.sub_diag.
    cbn [skipn app existsb is_validation_line is_yaml_snapshot orb].
    now apply yaml_days_are_not_snapshot_lines.
Qed.

Lemma day_failure_ends_print_mode_before_the_inventory_witness :
  exists w',
    collect Example.ist_localize Sample.parse Example.jan1 Sample.now
      Sample.store 2 4 (Some (date_of_ymd 1 1 3)) true true initial_world
    = (w', inl OverflowError)
    /\ existsb is_inventory_query
         (skipn (List.length (queries initial_world)) (queries w')) = false.
Proof.
  destruct (day_failure_ends_print_mode_before_the_inventory
              Example.ist_localize Sample.parse Example.jan1 Sample.now
              Sample.store 2 4 2 (Some (date_of_ymd 1 1 3)) true
              OverflowError initial_world)
    as [w' [Hrun [Hq _]]].
  - repeat constructor.
  - reflexivity.
  - reflexivity.
  - exists w'. split; [exact Hrun | exact Hq].
Defined.

(* ================================================================= *)
(** ** The date prefix tells the days of a run apart *)

Lemma check_from_spec (fuel : nat) (n : Z) :
  check_from fuel n = true ->
  forall k, n <= k < n + Z.of_nat fuel -> period_ok k = true.
Proof.
  revert n; induction fuel as [|fuel IH]; intros n H k Hk; [lia|].
  cbn [check_from] in H. apply andb_prop in H as [Hn Hrest].
  destruct (Z.eq_dec k n) as [->|Hne]; [exact Hn|].
  apply (IH (n + 1) Hrest). lia.
Qed.

Lemma first_period_checked : check_from (Z.to_nat 146097) 1 = true.
Proof. vm_compute. reflexivity. Qed.

Lemma period_ok_first_period (r : Z) :
  1 <= r <= 146097 -> period_ok r = true.
Proof.
  intros H. apply (check_from_spec _ _ first_period_checked). lia.
Qed.

Lemma ord2ymd_shift (r q : Z) :
  Calendar._ord2ymd (r + q * 146097)
  = (fst (fst (Calendar._ord2ymd r)) + 400 * q,
     snd (fst (Calendar._ord2ymd r)),
     snd (Calendar._ord2ymd r)).
Proof.
  unfold Calendar._ord2ymd, Calendar._DI400Y. cbv zeta.
  replace (r + q * 146097 - 1) with (r - 1 + q * 146097) by ring.
  rewrite Z.div_add, Z.mod_add by lia.
  repeat match goal with
         | |- context [if ?c then _ else _] => destruct c
         end;
    cbn [fst snd]; f_equal; try f_equal; ring.
Qed.

Lemma ymd2ord_shift (y m d q : Z) :
  Calendar._ymd2ord (y + 400 * q) m d = Calendar._ymd2ord y m d + q * 146097.
Proof.
  unfold Calendar._ymd2ord, Calendar._days_before_year,
    Calendar._days_before_month, Calendar._is_leap. cbv zeta.
  replace (y + 400 * q - 1) with (y - 1 + q * 400) by ring.
  replace ((y - 1 + q * 400) / 4) with ((y - 1) / 4 + q * 100)
    by (replace (y - 1 + q * 400) with (y - 1 + (q * 100) * 4) by ring;
        now rewrite Z.div_add by lia).
  replace ((y - 1 + q * 400) / 100) with ((y - 1) / 100 + q * 4)
    by (replace (y - 1 + q * 400) with (y - 1 + (q * 4) * 100) by ring;
        now rewrite Z.div_add by lia).
  rewrite Z.div_add by lia.
  replace ((y + 400 * q) mod 4) with (y mod 4)
    by (replace (y + 400 * q) with (y + (100 * q) * 4) by ring;
        now rewrite Z.mod_add by lia).
  replace ((y + 400 * q) mod 100) with (y mod 100)
    by (replace (y + 400 * q) with (y + (4 * q) * 100) by ring;
        now rewrite Z.mod_add by lia).
  replace ((y + 400 * q) mod 400) with (y mod 400)
    by (replace (y + 400 * q) with (y + q * 400) by ring;
        now rewrite Z.mod_add by lia).
  ring.
Qed.

(** Every date of the calendar: the fields are in range and give the
    ordinal back. *)
Lemma ord2ymd_in_range (n : Z) :
  1 <= n <= Calendar._MAXORDINAL ->
  let '(y, m, d) := Calendar._ord2ymd n in
  Calendar._ymd2ord y m d = n
  /\ 1 <= y <= 9999 /\ 1 <= m <= 12 /\ 1 <= d <= 31.
Proof.
  unfold Calendar._MAXORDINAL. intros Hn.
  pose (q := (n - 1) / 146097). pose (r := (n - 1) mod 146097 + 1).
  assert (Hr : 1 <= r <= 146097)
    by (unfold r; pose proof (Z.mod_pos_bound (n - 1) 146097 eq_refl); lia).
  assert (Hq : 0 <= q <= 24)
    by (unfold q; split;
        [apply Z.div_pos; lia
        | apply Z.lt_succ_r; apply Z.div_lt_upper_bound; lia]).
  assert (E : n = r + q * 146097)
    by (unfold r, q; pose proof (Z.div_mod (n - 1) 146097 ltac:(lia)); lia).
  pose proof (period_ok_first_period r Hr) as P.
  clearbody q r. subst n. rewrite ord2ymd_shift. unfold period_ok in P.
  destruct (Calendar._ord2ymd r) as [[y m] d]. cbn [fst snd].
  repeat (apply andb_prop in P as [P ?]).
  rewrite ymd2ord_shift.
  repeat match goal with
         | H : (_ <=? _) = true |- _ => apply Z.leb_le in H
         | H : (_ =? _) = true |- _ => apply Z.eqb_eq in H
         end.
  assert (Hy : 145731 < r \/ y <= 399).
  { match goal with
    | H : (_ || _) = true |- _ =>
        apply orb_prop in H as [H|H];
        [apply Z.ltb_lt in H | apply Z.leb_le in H]; lia
    end. }
  repeat split; try lia.
Qed.

Lemma digit_mod_inj (a b : Z) : digit a = digit b -> a mod 10 = b mod 10.
Proof.
  unfold digit. intros H.
  pose proof (Z.mod_pos_bound a 10 eq_refl).
  pose proof (Z.mod_pos_bound b 10 eq_refl).
  apply (f_equal nat_of_ascii) in H.
  rewrite !nat_ascii_embedding in H by lia. lia.
Qed.

Lemma digit_is_not_slash (n : Z) : digit n <> slash.
Proof.
  unfold digit, slash. intros H.
  pose proof (Z.mod_pos_bound n 10 eq_refl).
  apply (f_equal nat_of_ascii) in H.
  rewrite nat_ascii_embedding in H by lia. cbn in H. lia.
Qed.

Lemma prefix_cons (a c : ascii) (p s : string) :
  String.prefix (String a p) (String c s) = true ->
  a = c /\ String.prefix p s = true.
Proof.
  cbn [String.prefix]. destruct (ascii_dec a c); [now split | discriminate].
Qed.

Ltac peel_prefixes :=
  repeat match goal with
         | H : String.prefix (String _ _) (String _ _) = true |- _ =>
             let E := fresh "E" in apply prefix_cons in H as [E H]
         | H : String.prefix (String _ _) EmptyString = true |- _ =>
             discriminate H
         | H : String.prefix (String _ _) ?s = true |- _ =>
             is_var s; destruct s
         end.

Ltac digits_or_slash :=
  subst;
  try (exfalso;
       match goal with
       | H : slash = digit _ |- _ => exact (digit_is_not_slash _ (eq_sym H))
       | H : digit _ = slash |- _ => exact (digit_is_not_slash _ H)
       end);
  repeat match goal with
         | H : digit _ = digit _ |- _ => apply digit_mod_inj in H
         end.

(** Two formatted dates of the calendar that begin the same identifier are
    the same date: the year cannot end earlier in one than in the other,
    a slash being no digit. *)
Lemma common_prefix_same_date (y m d y' m' d' : Z) (id : string) :
  1 <= y < 10000 -> 1 <= y' < 10000 ->
  0 <= m < 100 -> 0 <= m' < 100 -> 0 <= d < 100 -> 0 <= d' < 100 ->
  String.prefix (strftime_ymd y m d) id = true ->
  String.prefix (strftime_ymd y' m' d') id = true ->
  y = y' /\ m = m' /\ d = d'.
Proof.
  intros Hy Hy' Hm Hm' Hd Hd' H H'.
  unfold strftime_ymd, year_digits, pad4, pad2 in H, H'.
  destruct (y <? 10) eqn:C1; [|destruct (y <? 100) eqn:C2;
                                [|destruct (y <? 1000) eqn:C3]];
  (destruct (y' <? 10) eqn:C1'; [|destruct (y' <? 100) eqn:C2';
                                   [|destruct (y' <? 1000) eqn:C3']]);
    repeat match goal with
           | C : (_ <? _) = true |- _ => apply Z.ltb_lt in C
           | C : (_ <? _) = false |- _ => apply Z.ltb_ge in C
           end;
    peel_prefixes; digits_or_slash;
    repeat split; Z.div_mod_to_equations; lia.
Qed.

Lemma day_window_in_calendar (localize : Z -> exn + Z) (d : datetime)
    (i : nat) (s : Z) :
  day_window localize d i = inr s ->
  1 <= toordinal d - Z.of_nat i <= Calendar._MAXORDINAL.
Proof.
  unfold day_window.
  destruct ((0 <? toordinal d - Z.of_nat i)
            && (toordinal d - Z.of_nat i <=? Calendar._MAXORDINAL)) eqn:E;
    [|discriminate].
  intros _. apply andb_prop in E as [E1 E2].
  apply Z.ltb_lt in E1. apply Z.leb_le in E2. lia.
Qed.

(** Two different days of a run never both count a snapshot by identifier:
    their date prefixes differ, and an identifier begins with at most one
    of them. *)
Theorem a_snapshot_is_counted_by_identifier_on_one_day_at_most
    (localize : Z -> exn + Z) (store : Store) (d : datetime) (i j : nat)
    (s s' : Z) (x : SiriSnapshot) :
  day_window localize d i = inr s ->
  day_window localize d j = inr s' ->
  i <> j ->
  In x (q_siri_snapshot_by_snapshot_id store (day_prefix_of d i)) ->
  ~ In x (q_siri_snapshot_by_snapshot_id store (day_prefix_of d j)).
Proof.
  intros Hi Hj Hne Hin Hin'.
  apply day_window_in_calendar in Hi, Hj.
  unfold day_prefix_of in Hin, Hin'.
  rewrite q_by_snapshot_id_filter in Hin, Hin'.
  apply filter_In in Hin as [_ Hin]. apply filter_In in Hin' as [_ Hin'].
  pose proof (ord2ymd_in_range _ Hi) as Ri.
  pose proof (ord2ymd_in_range _ Hj) as Rj.
  unfold year, month, day, day_date in Hin, Hin'. cbn [toordinal] in Hin, Hin'.
  destruct (Calendar._ord2ymd (toordinal d - Z.of_nat i)) as [[y m] dd].
  destruct (Calendar._ord2ymd (toordinal d - Z.of_nat j)) as [[y' m'] dd'].
  cbn [fst snd] in Hin, Hin'.
  destruct Ri as [Oi [? [? ?]]]. destruct Rj as [Oj [? [? ?]]].
  destruct (common_prefix_same_date y m dd y' m' dd' (snapshot_id x))
    as [-> [-> ->]]; try assumption; lia.
Qed.

Lemma a_snapshot_is_counted_by_identifier_on_one_day_at_most_witness :
  ~ In (Example.snapshot 1 "2024/01/01/10/00"
          (Example.jan1_start + 12 * one_hour))
      (q_siri_snapshot_by_snapshot_id Sample.store
         (day_prefix_of Example.jan2 0)).
Proof.
  apply (a_snapshot_is_counted_by_identifier_on_one_day_at_most
           Example.ist_localize Sample.store Example.jan2 1 0
           Example.jan1_start Example.jan2_start).
  - reflexivity.
  - reflexivity.
  - discriminate.
  - left. reflexivity.
Defined.

(* ================================================================= *)
(** ** The verdict and the snapshots that started last *)







